(** * A product catalogue served over HTTP: the five route handlers of
    [main.py], the session provider [get_db] and the schemas of
    [schemas.py], over the SQLite table of [database.py]. *)

From Stdlib Require Import ZArith String Floats.PrimFloat.
From stdpp Require Import gmap strings list fin_maps sorting.

Open Scope Z_scope.

(** ** Python values that travel through the handlers *)

(** The values the payload fields and the column attributes hold. A
    Python [int] is unbounded, a [float] is a binary64. *)
Inductive Value : Type :=
| VStr (s : string)
| VFloat (f : float)
| VInt (z : Z).

(** ** The integers an SQLite file holds *)

Definition min_int64 : Z := - 2 ^ 63.
Definition max_int64 : Z := 2 ^ 63 - 1.

Definition in_int64 (z : Z) : Prop := min_int64 <= z <= max_int64.

#[global] Instance in_int64_dec (z : Z) : Decision (in_int64 z).
Proof. unfold in_int64. apply _. Defined.

(** A signed 64-bit integer: the primary key of a row is one. *)
Record int64 : Type := mkInt64 {
  int64_Z :> Z;
  int64_range : bool_decide (in_int64 int64_Z) = true
}.

(** Binding a Python [int] to a statement: [None] stands for the
    [OverflowError] the driver raises outside the 64-bit range. *)
Definition to_int64 (z : Z) : option int64 :=
  match bool_decide (in_int64 z) as b
        return bool_decide (in_int64 z) = b -> option int64 with
  | true => fun H => Some (mkInt64 z H)
  | false => fun _ => None
  end eq_refl.

#[global] Instance int64_eq_dec : EqDecision int64.
Proof.
  intros [a Ha] [b Hb]. destruct (decide (a = b)) as [Hab|Hab].
  - left. subst b. f_equal. apply proof_irrel.
  - right. intros H. apply Hab. injection H as H. exact H.
Defined.

#[global] Instance int64_countable : Countable int64.
Proof.
  apply (inj_countable int64_Z to_int64).
  intros [a Ha]. unfold to_int64. cbn.
  generalize (eq_refl (bool_decide (in_int64 a))).
  generalize (bool_decide (in_int64 a)) at 2 3.
  intros [|] H; [f_equal; f_equal; apply proof_irrel | congruence].
Defined.

(** Binding a Python [float]: SQLite keeps a NaN as NULL ([None]) and
    reads a negative zero back as zero. *)
Definition bind_float (f : float) : option float :=
  if is_nan f then None
  else if is_zero f then Some zero
  else Some f.

(** ** schemas.py *)

Module schemas.

(** [class ProdutoBase(BaseModel)]: the three typed fields. *)
Record ProdutoBase : Type := mkProdutoBase {
  nome : string;
  preco : float;
  estoque : Z
}.

(** [class ProdutoCreate(ProdutoBase): pass]. *)
Definition ProdutoCreate : Type := ProdutoBase.

(** [class Produto(ProdutoBase)]: the base fields and [id: int]. *)
Record Produto : Type := mkProduto {
  id : Z;
  base : ProdutoBase
}.

(** [produto.dict()]: the fields in declaration order. *)
Definition dict (p : ProdutoCreate) : list (string * Value) :=
  [("nome"%string, VStr (nome p));
   ("preco"%string, VFloat (preco p));
   ("estoque"%string, VInt (estoque p))].

End schemas.

(** ** models.py *)

Module models.

(** Modelled from the spec: [models.py] is not among the sources. An
    instance of the mapped class [Produto] carries the four column
    attributes [id], [nome], [preco] and [estoque]; an attribute that
    was never set, or that was loaded from a NULL, is [None]. *)
Record Produto : Type := mkProduto {
  id : option Value;
  nome : option Value;
  preco : option Value;
  estoque : option Value
}.

Definition blank : Produto := mkProduto None None None None.

(** [setattr(produto, campo, valor)] on the column attributes; any
    other name is an ordinary Python attribute, which no column sees. *)
Definition setattr (o : Produto) (campo : string) (valor : Value) : Produto :=
  if String.eqb campo "id" then mkProduto (Some valor) (nome o) (preco o) (estoque o)
  else if String.eqb campo "nome" then mkProduto (id o) (Some valor) (preco o) (estoque o)
  else if String.eqb campo "preco" then mkProduto (id o) (nome o) (Some valor) (estoque o)
  else if String.eqb campo "estoque" then mkProduto (id o) (nome o) (preco o) (Some valor)
  else o.

End models.

(** ** The table [produtos] *)

(** Modelled from the spec: the table definition lives in [models.py].
    A row holds the three data columns; [preco] can be NULL, which is
    what a NaN is stored as. The primary key [id] is the key of the
    table, a signed 64-bit integer, unique by construction. *)
Record Row : Type := mkRow {
  col_nome : string;
  col_preco : option float;
  col_estoque : Z
}.

Abbreviation Table := (gmap int64 Row).

(** The largest primary key in use, if any. *)
Definition max_id (t : Table) : option Z :=
  map_fold (fun (k : int64) _ acc =>
              match acc with
              | None => Some (int64_Z k)
              | Some m => Some (Z.max k m)
              end) None t.

(** Modelled from the spec: the id is generated by the store, which
    [database.py] makes an SQLite file. SQLite gives a row inserted
    without a key 1 when the table is empty and one more than the
    largest key otherwise; when the largest key is the largest 64-bit
    integer it looks for a free positive key at random, and [random]
    stands for what that search finds, if anything. [None] is a store
    that is full. *)
Definition next_id (random : Table -> option Z) (t : Table) : option int64 :=
  match max_id t with
  | None => to_int64 1
  | Some m =>
      if decide (m < max_int64) then to_int64 (m + 1)
      else
        match random t with
        | Some z =>
            match to_int64 z with
            | Some k =>
                match t !! k with
                | None => if decide (1 <= k) then Some k else None
                | Some _ => None
                end
            | None => None
            end
        | None => None
        end
  end.

(** ** Exceptions and outcomes *)

Inductive exn : Type :=
| HTTPException (status_code : Z) (detail : string)
| OverflowError
| OperationalError
| IntegrityError
| InvalidRequestError.

Inductive outcome (A : Type) : Type :=
| Return (a : A)
| Raise (e : exn).
Arguments Return {A} a.
Arguments Raise {A} e.

(** ** The engine *)

(** What happens to sessions, newest first. *)
Inductive Event : Type :=
| Opened (db : nat)
| Used (db : nat)
| Closed (db : nat).

(** The table, the sessions that are open, how many sessions the
    factory has handed out, what has happened to sessions so far, and
    SQLite's random search for a key. *)
Record World : Type := mkWorld {
  table : Table;
  open_sessions : gset nat;
  sessions_created : nat;
  trace : list Event;
  random_rowid : Table -> option Z
}.

Definition acquire (db : nat) (open : gset nat) : gset nat := {[db]} ∪ open.
Definition release (db : nat) (open : gset nat) : gset nat := open ∖ {[db]}.
Arguments acquire : simpl never.
Arguments release : simpl never.

Definition set_table (t : Table) (w : World) : World :=
  mkWorld t (open_sessions w) (sessions_created w) (trace w) (random_rowid w).

(** A statement sent through session [db]: the session holds a
    connection from then on, also when it had been closed. *)
Definition touch (db : nat) (w : World) : World :=
  mkWorld (table w) (acquire db (open_sessions w)) (sessions_created w)
          (Used db :: trace w) (random_rowid w).

(** ** The session: a unit of work over the table *)

(** Instances are addressed by their position in [instances]; [new],
    [dirty] and [deleted] are the pending changes a commit flushes. *)
Record Session : Type := mkSession {
  instances : list models.Produto;
  new : list nat;
  dirty : list nat;
  deleted : list nat
}.

Definition fresh_session : Session := mkSession [] [] [] [].

(** What a handler runs in: the contents of its session and the world. *)
Definition DB (A : Type) : Type :=
  Session * World -> outcome A * (Session * World).

Definition ret {A} (a : A) : DB A := fun st => (Return a, st).

Definition raise {A} (e : exn) : DB A := fun st => (Raise e, st).

Definition bind {A B} (m : DB A) (k : A -> DB B) : DB B :=
  fun st =>
    match m st with
    | (Return a, st') => k a st'
    | (Raise e, st') => (Raise e, st')
    end.

(** [m], and [h] before the exception goes on when [m] raises. *)
Definition on_error {A} (m : DB A) (h : DB unit) : DB A :=
  fun st =>
    match m st with
    | (Return a, st') => (Return a, st')
    | (Raise e, st') => (Raise e, (h st').2)
    end.

Declare Scope db_scope.
Delimit Scope db_scope with db.
Notation "x <~ m ;; k" := (bind m (fun x => k))
  (at level 100, m at next level, right associativity) : db_scope.
Notation "m ;;; k" := (bind m (fun _ => k))
  (at level 100, right associativity) : db_scope.
Open Scope db_scope.

Fixpoint for_each {A} (f : A -> DB unit) (l : list A) : DB unit :=
  match l with
  | [] => ret tt
  | a :: l' => f a ;;; for_each f l'
  end.

Fixpoint collect {A B} (f : A -> DB B) (l : list A) : DB (list B) :=
  match l with
  | [] => ret []
  | a :: l' => b <~ f a ;; bs <~ collect f l' ;; ret (b :: bs)
  end.

Definition get_session : DB Session := fun st => (Return (fst st), st).
Definition put_session (s : Session) : DB unit := fun st => (Return tt, (s, snd st)).
Definition get_world : DB World := fun st => (Return (snd st), st).
Definition get_table : DB Table := fun st => (Return (table (snd st)), st).
Definition put_table (t : Table) : DB unit :=
  fun st => (Return tt, (fst st, set_table t (snd st))).
Definition use (db : nat) : DB unit :=
  fun st => (Return tt, (fst st, touch db (snd st))).

(** Reading an instance; a reference outside the heap belongs to no
    session. *)
Definition instance (r : nat) : DB models.Produto :=
  s <~ get_session ;;
  match instances s !! r with
  | Some o => ret o
  | None => raise InvalidRequestError
  end.

Definition allocate (o : models.Produto) : DB nat :=
  s <~ get_session ;;
  put_session (mkSession (instances s ++ [o]) (new s) (dirty s) (deleted s)) ;;;
  ret (length (instances s)).

Definition store (r : nat) (o : models.Produto) : DB unit :=
  s <~ get_session ;;
  put_session (mkSession (<[r := o]> (instances s)) (new s) (dirty s) (deleted s)).

Definition mark (l : list nat) (r : nat) : list nat :=
  if decide (r ∈ l) then l else l ++ [r].

(** [setattr] on an instance of the session: the attribute changes and
    the instance is remembered as modified. *)
Definition setattr (r : nat) (campo : string) (valor : Value) : DB unit :=
  o <~ instance r ;;
  store r (models.setattr o campo valor) ;;;
  s <~ get_session ;;
  put_session (mkSession (instances s) (new s) (mark (dirty s) r) (deleted s)).

(** The constructor of [models.Produto] called with keyword arguments:
    a new instance with each keyword set. It belongs to no session yet,
    so no session remembers it as modified. *)
Definition models_Produto (kwargs : list (string * Value)) : DB nat :=
  allocate (fold_left (fun o kv => models.setattr o (fst kv) (snd kv))
                      kwargs models.blank).

(** [db.add(novo)]. *)
Definition add (r : nat) : DB unit :=
  s <~ get_session ;;
  put_session (mkSession (instances s) (mark (new s) r) (dirty s) (deleted s)).

(** [db.delete(produto)]. *)
Definition delete_ (r : nat) : DB unit :=
  s <~ get_session ;;
  put_session (mkSession (instances s) (new s) (dirty s) (mark (deleted s) r)).

(** The row an instance is written as: the values are bound to the
    statement, which fails on a stock outside the 64-bit range. *)
Definition row_of (o : models.Produto) : outcome Row :=
  match models.nome o, models.estoque o with
  | Some (VStr n), Some (VInt e) =>
      if decide (in_int64 e) then
        match models.preco o with
        | Some (VFloat f) => Return (mkRow n (bind_float f) e)
        | None => Return (mkRow n None e)
        | Some _ => Raise IntegrityError
        end
      else Raise OverflowError
  | _, _ => Raise IntegrityError
  end.

(** The instance a row is read as. *)
Definition load (k : int64) (row : Row) : models.Produto :=
  models.mkProduto (Some (VInt k)) (Some (VStr (col_nome row)))
                   (VFloat <$> col_preco row) (Some (VInt (col_estoque row))).

(** INSERT of a pending instance; the generated key is written back to
    the instance. *)
Definition flush_insert (r : nat) : DB unit :=
  o <~ instance r ;;
  w <~ get_world ;;
  match row_of o with
  | Raise e => raise e
  | Return row =>
      match models.id o with
      | None =>
          match next_id (random_rowid w) (table w) with
          | Some k =>
              put_table (<[k := row]> (table w)) ;;;
              store r (models.setattr o "id" (VInt k))
          | None => raise OperationalError
          end
      | Some (VInt i) =>
          match to_int64 i with
          | None => raise OverflowError
          | Some k =>
              match table w !! k with
              | None => put_table (<[k := row]> (table w))
              | Some _ => raise IntegrityError
              end
          end
      | Some _ => raise IntegrityError
      end
  end.

(** UPDATE ... WHERE id = the instance's key. *)
Definition flush_update (r : nat) : DB unit :=
  o <~ instance r ;;
  t <~ get_table ;;
  match models.id o with
  | Some (VInt i) =>
      match to_int64 i with
      | None => raise OverflowError
      | Some k =>
          match row_of o with
          | Return row => put_table (alter (fun _ => row) k t)
          | Raise e => raise e
          end
      end
  | _ => ret tt
  end.

(** DELETE ... WHERE id = the instance's key. *)
Definition flush_delete (r : nat) : DB unit :=
  o <~ instance r ;;
  t <~ get_table ;;
  match models.id o with
  | Some (VInt i) =>
      match to_int64 i with
      | None => raise OverflowError
      | Some k => put_table (delete k t)
      end
  | _ => raise InvalidRequestError
  end.

(** The pending inserts, then the updates of the modified instances
    that are neither new nor deleted, then the deletes. *)
Definition flush : DB unit :=
  s <~ get_session ;;
  for_each flush_insert (new s) ;;;
  for_each flush_update
    (filter (fun r => (r ∉ new s) ∧ (r ∉ deleted s)) (dirty s)) ;;;
  for_each flush_delete (deleted s).

(** [db.commit()]: the flush in a transaction, which is rolled back
    when a statement fails; the unit of work is empty after a commit
    that went through. The handlers read an instance after a commit
    only through [refresh], which loads it again. *)
Definition commit (db : nat) : DB unit :=
  use db ;;;
  t0 <~ get_table ;;
  on_error flush (put_table t0) ;;;
  s <~ get_session ;;
  put_session (mkSession (instances s) [] [] []).

(** [db.refresh(produto)]: the attributes are read again from the row
    with the instance's key. *)
Definition refresh (db : nat) (r : nat) : DB unit :=
  use db ;;;
  o <~ instance r ;;
  t <~ get_table ;;
  match models.id o with
  | Some (VInt i) =>
      match to_int64 i with
      | None => raise OverflowError
      | Some k =>
          match t !! k with
          | Some row => store r (load k row)
          | None => raise InvalidRequestError
          end
      end
  | _ => raise InvalidRequestError
  end.

(** The rows of the table in the order of their keys, which is the
    order SQLite walks the table in. *)
Definition key_le (a b : int64 * Row) : Prop := int64_Z (fst a) <= int64_Z (fst b).

#[global] Instance key_le_dec (a b : int64 * Row) : Decision (key_le a b).
Proof. unfold key_le. apply _. Defined.

Definition rows (t : Table) : list (int64 * Row) :=
  merge_sort key_le (map_to_list t).

(** [db.query(models.Produto).all()]: every row. *)
Definition query_all (db : nat) : DB (list nat) :=
  use db ;;;
  t <~ get_table ;;
  collect (fun kv => allocate (load (fst kv) (snd kv))) (rows t).

(** [db.query(models.Produto).filter(models.Produto.id == produto_id).first()]:
    the id is bound to the statement, which fails outside the 64-bit
    range. *)
Definition query_filter_id_first (db : nat) (produto_id : Z) : DB (option nat) :=
  use db ;;;
  match to_int64 produto_id with
  | None => raise OverflowError
  | Some k =>
      t <~ get_table ;;
      match t !! k with
      | Some row => r <~ allocate (load k row) ;; ret (Some r)
      | None => ret None
      end
  end.

(** ** main.py: the route handlers *)

Definition not_found : exn := HTTPException 404 "Produto não encontrado".

Definition criar_produto (produto : schemas.ProdutoCreate) (db : nat) : DB nat :=
  novo <~ models_Produto (schemas.dict produto) ;;
  add novo ;;;
  commit db ;;;
  refresh db novo ;;;
  ret novo.

Definition listar_produtos (db : nat) : DB (list nat) :=
  query_all db.

Definition obter_produto (produto_id : Z) (db : nat) : DB nat :=
  produto <~ query_filter_id_first db produto_id ;;
  match produto with
  | None => raise not_found
  | Some produto => ret produto
  end.

Definition atualizar_produto (produto_id : Z) (dados : schemas.ProdutoCreate)
    (db : nat) : DB nat :=
  produto <~ query_filter_id_first db produto_id ;;
  match produto with
  | None => raise not_found
  | Some produto =>
      for_each (fun kv => setattr produto (fst kv) (snd kv)) (schemas.dict dados) ;;;
      commit db ;;;
      refresh db produto ;;;
      ret produto
  end.

Definition deletar_produto (produto_id : Z) (db : nat) : DB (list (string * string)) :=
  produto <~ query_filter_id_first db produto_id ;;
  match produto with
  | None => raise not_found
  | Some produto =>
      delete_ produto ;;;
      commit db ;;;
      ret [("mensagem"%string, "Produto deletado com sucesso"%string)]
  end.

(** ** Responses *)

Module json.

(** A product as the response body carries it: [preco] is a number or
    [null]. *)
Record Produto : Type := mkProduto {
  id : Z;
  nome : string;
  preco : option float;
  estoque : Z
}.

End json.

Inductive Body : Type :=
| JProduto (p : json.Produto)
| JLista (l : list json.Produto)
| JDict (d : list (string * string)).

Inductive Response : Type :=
| Ok (body : Body)
| Error (status_code : Z) (detail : string).

(** [response_model=schemas.Produto] with [orm_mode]: the four
    attributes are read off the instance and validated; an attribute
    that is [None] does not validate. The columns are typed, so values
    of other types do not reach this point. *)
Definition from_orm (o : models.Produto) : option schemas.Produto :=
  match models.id o, models.nome o, models.preco o, models.estoque o with
  | Some (VInt i), Some (VStr n), Some (VFloat f), Some (VInt e) =>
      Some (schemas.mkProduto i (schemas.mkProdutoBase n f e))
  | _, _, _, _ => None
  end.

(** A float in the body: a number when it is finite, [null] otherwise. *)
Definition render_float (f : float) : option float :=
  if is_nan f || is_infinity f then None else Some f.

Definition render (p : schemas.Produto) : json.Produto :=
  json.mkProduto (schemas.id p) (schemas.nome (schemas.base p))
                 (render_float (schemas.preco (schemas.base p)))
                 (schemas.estoque (schemas.base p)).

Definition serialize_Produto (r : nat) (s : Session) : option Body :=
  o ← instances s !! r; p ← from_orm o; Some (JProduto (render p)).

Definition serialize_list (rs : list nat) (s : Session) : option Body :=
  JLista <$> mapM (fun r => o ← instances s !! r; p ← from_orm o; Some (render p)) rs.

Definition serialize_dict (d : list (string * string)) (s : Session) : option Body :=
  Some (JDict d).

Definition internal_error : Response := Error 500 "Internal Server Error".

Definition response_of_exn (e : exn) : Response :=
  match e with
  | HTTPException status_code detail => Error status_code detail
  | _ => internal_error
  end.

(** ** The session provider *)

(** [SessionLocal()]. *)
Definition SessionLocal (w : World) : nat * World :=
  let db := sessions_created w in
  (db, mkWorld (table w) (acquire db (open_sessions w)) (S db)
               (Opened db :: trace w) (random_rowid w)).

(** [db.close()]. *)
Definition close (db : nat) (w : World) : World :=
  mkWorld (table w) (release db (open_sessions w)) (sessions_created w)
          (Closed db :: trace w) (random_rowid w).

(** The generator [get_db], by the point where it stands. *)
Inductive get_db_frame : Type :=
| get_db_start
| get_db_yielded (db : nat)
| get_db_finished.

(** Resuming [get_db] normally: from the start it creates the session
    and yields it; from the [yield] it runs the [finally] block. *)
Definition get_db_next (g : get_db_frame) (w : World)
  : get_db_frame * option nat * World :=
  match g with
  | get_db_start =>
      let '(db, w') := SessionLocal w in (get_db_yielded db, Some db, w')
  | get_db_yielded db => (get_db_finished, None, close db w)
  | get_db_finished => (get_db_finished, None, w)
  end.

(** Resuming [get_db] with an exception thrown at the [yield]: the
    [finally] block runs and the exception goes on. *)
Definition get_db_throw (g : get_db_frame) (e : exn) (w : World)
  : get_db_frame * World :=
  match g with
  | get_db_yielded db => (get_db_finished, close db w)
  | _ => (get_db_finished, w)
  end.

(** A request to a route whose handler depends on [get_db]: the
    generator is run up to its [yield], the handler runs with the
    session it yielded, the result goes through the response model, and
    the generator is resumed, normally or with the handler's exception. *)
Definition request {A} (handler : nat -> DB A) (serialize : A -> Session -> option Body)
    (w : World) : Response * World :=
  match get_db_next get_db_start w with
  | (g, Some db, w1) =>
      match handler db (fresh_session, w1) with
      | (Return a, (s, w2)) =>
          let resp := match serialize a s with
                      | Some b => Ok b
                      | None => internal_error
                      end in
          (resp, (get_db_next g w2).2)
      | (Raise e, (s, w2)) =>
          (response_of_exn e, (get_db_throw g e w2).2)
      end
  | (_, None, w1) => (internal_error, w1)
  end.

(** ** The routes *)

(** POST /produtos *)
Definition post_produtos (produto : schemas.ProdutoCreate) : World -> Response * World :=
  request (criar_produto produto) serialize_Produto.

(** GET /produtos *)
Definition get_produtos : World -> Response * World :=
  request listar_produtos serialize_list.

(** GET /produtos/{produto_id} *)
Definition get_produto (produto_id : Z) : World -> Response * World :=
  request (obter_produto produto_id) serialize_Produto.

(** PUT /produtos/{produto_id} *)
Definition put_produto (produto_id : Z) (dados : schemas.ProdutoCreate)
  : World -> Response * World :=
  request (atualizar_produto produto_id dados) serialize_Produto.

(** DELETE /produtos/{produto_id} *)
Definition delete_produto (produto_id : Z) : World -> Response * World :=
  request (deletar_produto produto_id) serialize_dict.

(** The requests the application serves, and a run of several. *)
Inductive Request : Type :=
| POST (produto : schemas.ProdutoCreate)
| GET_all
| GET (produto_id : Z)
| PUT (produto_id : Z) (dados : schemas.ProdutoCreate)
| DELETE (produto_id : Z).

Definition serve (r : Request) : World -> Response * World :=
  match r with
  | POST produto => post_produtos produto
  | GET_all => get_produtos
  | GET produto_id => get_produto produto_id
  | PUT produto_id dados => put_produto produto_id dados
  | DELETE produto_id => delete_produto produto_id
  end.

Fixpoint serve_all (rs : list Request) (w : World) : list Response * World :=
  match rs with
  | [] => ([], w)
  | r :: rs' =>
      let '(resp, w1) := serve r w in
      let '(resps, w2) := serve_all rs' w1 in
      (resp :: resps, w2)
  end.

(** The id a request addresses, when it addresses one. *)
Definition target (r : Request) : option Z :=
  match r with
  | POST _ => None
  | GET_all => None
  | GET produto_id => Some produto_id
  | PUT produto_id _ => Some produto_id
  | DELETE produto_id => Some produto_id
  end.

(** ** The scenario of the Caneta *)

Definition caneta : schemas.ProdutoCreate :=
  schemas.mkProdutoBase "Caneta" 2.5%float 100.

Definition caneta_azul : schemas.ProdutoCreate :=
  schemas.mkProdutoBase "Caneta Azul" 3.0%float 90.

Definition no_random : Table -> option Z := fun _ => None.

Definition empty_world : World := mkWorld ∅ ∅ 0 [] no_random.

Definition key_1 : int64 := mkInt64 1 eq_refl.

Definition row_caneta : Row := mkRow "Caneta" (Some 2.5%float) 100.

Definition world_caneta : World :=
  mkWorld {[key_1 := row_caneta]} ∅ 1 [] no_random.

Definition body_caneta : json.Produto :=
  json.mkProduto 1 "Caneta" (Some 2.5%float) 100.

Definition body_caneta_azul : json.Produto :=
  json.mkProduto 1 "Caneta Azul" (Some 3.0%float) 90.

(** ** What the theorems speak in *)

(** The row a validated payload is written as, when its stock can be
    bound. *)
Definition row_of_payload (p : schemas.ProdutoCreate) : Row :=
  mkRow (schemas.nome p) (bind_float (schemas.preco p)) (schemas.estoque p).

(** The body a row is served as; a row with a NULL [preco] has none. *)
Definition entity (k : int64) (row : Row) : option json.Produto :=
  f ← col_preco row;
  Some (json.mkProduto k (col_nome row) (render_float f) (col_estoque row)).

Definition response_of_entity (e : option json.Produto) : Response :=
  match e with
  | Some e => Ok (JProduto e)
  | None => internal_error
  end.

(** What the listing of a table serves, when every row has a body. *)
Definition entities (t : Table) : option (list json.Produto) :=
  mapM (fun kv => entity (fst kv) (snd kv)) (rows t).

Definition not_found_response : Response := Error 404 "Produto não encontrado".

Definition deleted_body : Body :=
  JDict [("mensagem"%string, "Produto deletado com sucesso"%string)].

(** The response a request gets, as a function of the world it finds. *)
Definition response_for (r : Request) (w : World) : Response :=
  match r with
  | POST produto =>
      if decide (in_int64 (schemas.estoque produto)) then
        match next_id (random_rowid w) (table w) with
        | Some k => response_of_entity (entity k (row_of_payload produto))
        | None => internal_error
        end
      else internal_error
  | GET_all =>
      match entities (table w) with
      | Some l => Ok (JLista l)
      | None => internal_error
      end
  | GET produto_id =>
      match to_int64 produto_id with
      | None => internal_error
      | Some k =>
          match table w !! k with
          | Some row => response_of_entity (entity k row)
          | None => not_found_response
          end
      end
  | PUT produto_id dados =>
      match to_int64 produto_id with
      | None => internal_error
      | Some k =>
          match table w !! k with
          | Some _ =>
              if decide (in_int64 (schemas.estoque dados))
              then response_of_entity (entity k (row_of_payload dados))
              else internal_error
          | None => not_found_response
          end
      end
  | DELETE produto_id =>
      match to_int64 produto_id with
      | None => internal_error
      | Some k =>
          match table w !! k with
          | Some _ => Ok deleted_body
          | None => not_found_response
          end
      end
  end.

(** The table a request leaves behind, as a function of the world it
    finds. *)
Definition table_after (r : Request) (w : World) : Table :=
  match r with
  | POST produto =>
      if decide (in_int64 (schemas.estoque produto)) then
        match next_id (random_rowid w) (table w) with
        | Some k => <[k := row_of_payload produto]> (table w)
        | None => table w
        end
      else table w
  | GET_all => table w
  | GET _ => table w
  | PUT produto_id dados =>
      match to_int64 produto_id with
      | Some k =>
          if decide (in_int64 (schemas.estoque dados))
          then alter (fun _ => row_of_payload dados) k (table w)
          else table w
      | None => table w
      end
  | DELETE produto_id =>
      match to_int64 produto_id with
      | Some k => delete k (table w)
      | None => table w
      end
  end.

(** The world a request leaves behind when its handler sent [uses]
    statements and left table [t]. *)
Definition finished (t : Table) (uses : nat) (w : World) : World :=
  let db := sessions_created w in
  mkWorld t
          (release db (Nat.iter uses (acquire db) (acquire db (open_sessions w))))
          (S db)
          (Closed db :: replicate uses (Used db) ++ Opened db :: trace w)
          (random_rowid w).

(** A float as it is read back from the store: a negative zero comes
    back as zero. *)
Definition read_back (f : float) : float := if is_zero f then zero else f.

(** The body of the product made of id [i] and payload [p], for a
    [preco] that is not a NaN. *)
Definition body_of (i : Z) (p : schemas.ProdutoCreate) : json.Produto :=
  json.mkProduto i (schemas.nome p) (render_float (read_back (schemas.preco p)))
                 (schemas.estoque p).

(** The responses that carry a product, and those that carry the
    acknowledgment of a delete. *)
Definition carries_product (resp : Response) : bool :=
  match resp with
  | Ok (JProduto _) => true
  | _ => false
  end.

Definition acknowledged (resp : Response) : bool :=
  match resp with
  | Ok (JDict _) => true
  | _ => false
  end.

Definition is_POST (r : Request) : bool :=
  match r with
  | POST _ => true
  | _ => false
  end.


(** Payloads the store does not take as they are. *)
Definition caneta_overflow : schemas.ProdutoCreate :=
  schemas.mkProdutoBase "Caneta" 2.5%float (2 ^ 63).


(** The creations of a run that were answered with a product, counted
    on the requests of the run and the responses they got. *)
Definition answered_creation (rr : Request * Response) : bool :=
  is_POST (fst rr) && carries_product (snd rr).

Definition created_products (rs : list Request) (resps : list Response) : nat :=
  length (List.filter answered_creation (zip rs resps)).

(** A table with a row whose [preco] is NULL, as a creation with a NaN
    leaves it. *)
Definition world_null : World :=
  mkWorld {[key_1 := mkRow "Caneta" None 100]} ∅ 1 [] no_random.

(** * Properties *)

(** ** Keys *)

Lemma int64_eq (k1 k2 : int64) : int64_Z k1 = int64_Z k2 -> k1 = k2.
Proof.
  destruct k1 as [a Ha], k2 as [b Hb]. cbn. intros ->. f_equal. apply proof_irrel.
Qed.

Lemma to_int64_spec (z : Z) :
  match to_int64 z with
  | Some k => int64_Z k = z /\ in_int64 z
  | None => ~ in_int64 z
  end.
Proof.
  unfold to_int64.
  generalize (eq_refl (bool_decide (in_int64 z))).
  generalize (bool_decide (in_int64 z)) at 2 3.
  intros [|] H.
  - split; [reflexivity | exact (proj1 (bool_decide_eq_true _) H)].
  - exact (proj1 (bool_decide_eq_false _) H).
Qed.

Lemma to_int64_Some (z : Z) (k : int64) : to_int64 z = Some k -> int64_Z k = z.
Proof.
  intros E. pose proof (to_int64_spec z) as H. rewrite E in H. apply H.
Qed.

Lemma to_int64_None (z : Z) : to_int64 z = None <-> ~ in_int64 z.
Proof.
  pose proof (to_int64_spec z) as H.
  destruct (to_int64 z) as [k|]; split; try discriminate; try tauto.
Qed.

Lemma to_int64_is_Some (z : Z) :
  in_int64 z -> exists k, to_int64 z = Some k /\ int64_Z k = z.
Proof.
  intros H. destruct (to_int64 z) as [k|] eqn:E.
  - exists k. split; [reflexivity | eapply to_int64_Some; eassumption].
  - apply to_int64_None in E. contradiction.
Qed.

Lemma int64_in_range (k : int64) : in_int64 k.
Proof. exact (proj1 (bool_decide_eq_true _) (int64_range k)). Qed.

Lemma to_int64_proj (k : int64) : to_int64 k = Some k.
Proof.
  destruct (to_int64 k) as [k'|] eqn:E.
  - f_equal. apply int64_eq. eapply to_int64_Some. eassumption.
  - apply to_int64_None in E. destruct (E (int64_in_range k)).
Qed.

Lemma max_id_bounds (t : Table) (k : int64) :
  is_Some (t !! k) -> exists m, max_id t = Some m /\ k <= m.
Proof.
  unfold max_id.
  apply (map_fold_weak_ind
           (fun (acc : option Z) (m : Table) =>
              is_Some (m !! k) -> exists b, acc = Some b /\ k <= b)).
  - rewrite lookup_empty. intros [x Hx]. discriminate.
  - intros i x m r Hi IH Hk.
    destruct (decide (i = k)) as [->|Hne].
    + destruct r as [b|]; eexists; split; try reflexivity; lia.
    + rewrite lookup_insert_ne in Hk by assumption.
      destruct (IH Hk) as (b & -> & Hb).
      eexists; split; [reflexivity | lia].
Qed.

Lemma max_id_empty (t : Table) : max_id t = None -> t = ∅.
Proof.
  intros H. apply map_empty. intros k.
  destruct (t !! k) as [row|] eqn:E; [|reflexivity].
  destruct (max_id_bounds t k) as (m & Hm & _); [eauto|congruence].
Qed.

(** The key the store generates is free. *)
Lemma next_id_fresh (random : Table -> option Z) (t : Table) (k : int64) :
  next_id random t = Some k -> t !! k = None.
Proof.
  unfold next_id. destruct (max_id t) as [m|] eqn:Hm.
  - destruct (decide (m < max_int64)) as [Hlt|Hge].
    + intros Hk. apply to_int64_Some in Hk.
      destruct (t !! k) as [row|] eqn:E; [|reflexivity].
      destruct (max_id_bounds t k) as (m' & Hm' & Hle); [eauto|].
      assert (m' = m) by congruence. subst m'. lia.
    + destruct (random t) as [z|]; [|discriminate].
      destruct (to_int64 z) as [k'|]; [|discriminate].
      destruct (t !! k') as [row|] eqn:E; [discriminate|].
      destruct (decide (1 <= k')); [|discriminate].
      intros H. injection H as <-. exact E.
  - intros _. rewrite (max_id_empty t Hm). apply lookup_empty.
Qed.

Lemma next_id_empty (random : Table -> option Z) :
  int64_Z <$> next_id random ∅ = Some 1.
Proof. reflexivity. Qed.

(** ** The session, statement by statement *)

Lemma bind_Return {A B} (m : DB A) (k : A -> DB B) st a st' :
  m st = (Return a, st') -> bind m k st = k a st'.
Proof. intros H. unfold bind. rewrite H. reflexivity. Qed.

Lemma bind_Raise {A B} (m : DB A) (k : A -> DB B) st e st' :
  m st = (Raise e, st') -> bind m k st = (Raise e, st').
Proof. intros H. unfold bind. rewrite H. reflexivity. Qed.

(** Symbolic execution: the session combinators are unfolded and what
    is concrete is evaluated; the table stays symbolic. *)
Ltac unmonad :=
  cbv beta iota zeta delta
    [bind ret raise on_error for_each get_session put_session get_world
     get_table put_table use instance allocate store setattr add delete_
     flush flush_insert flush_update flush_delete commit refresh
     query_filter_id_first models_Produto fst snd].

Ltac eval_pending :=
  repeat match goal with
    | |- context [mark ?l ?r] =>
        let v := eval vm_compute in (mark l r) in change (mark l r) with v
    | |- context [filter ?P ?l] =>
        let v := eval vm_compute in (filter P l) in change (filter P l) with v
    end.

Ltac reduce := cbn -[next_id to_int64 row_of in_int64 bind_float].

Ltac exec := unmonad; repeat (progress (reduce; eval_pending)).

Lemma query_hit (db : nat) (s : Session) (w : World) (i : Z) (k : int64) (row : Row) :
  to_int64 i = Some k ->
  table w !! k = Some row ->
  query_filter_id_first db i (s, w) =
  (Return (Some (length (instances s))),
   (mkSession (instances s ++ [load k row]) (new s) (dirty s) (deleted s), touch db w)).
Proof. intros Hk Ht. unmonad. rewrite Hk. cbn. rewrite Ht. reflexivity. Qed.

Lemma query_miss (db : nat) (s : Session) (w : World) (i : Z) (k : int64) :
  to_int64 i = Some k ->
  table w !! k = None ->
  query_filter_id_first db i (s, w) = (Return None, (s, touch db w)).
Proof. intros Hk Ht. unmonad. rewrite Hk. cbn. rewrite Ht. reflexivity. Qed.

Lemma query_overflow (db : nat) (s : Session) (w : World) (i : Z) :
  to_int64 i = None ->
  query_filter_id_first db i (s, w) = (Raise OverflowError, (s, touch db w)).
Proof. intros Hk. unmonad. rewrite Hk. reflexivity. Qed.

Lemma row_of_bound (i : option Value) (p : schemas.ProdutoCreate) :
  in_int64 (schemas.estoque p) ->
  row_of (models.mkProduto i (Some (VStr (schemas.nome p)))
                           (Some (VFloat (schemas.preco p)))
                           (Some (VInt (schemas.estoque p))))
  = Return (row_of_payload p).
Proof. intros H. unfold row_of. cbn. rewrite decide_True by assumption. reflexivity. Qed.

Lemma row_of_overflow (i : option Value) (p : schemas.ProdutoCreate) :
  ~ in_int64 (schemas.estoque p) ->
  row_of (models.mkProduto i (Some (VStr (schemas.nome p)))
                           (Some (VFloat (schemas.preco p)))
                           (Some (VInt (schemas.estoque p))))
  = Raise OverflowError.
Proof. intros H. unfold row_of. cbn. rewrite decide_False by assumption. reflexivity. Qed.

(** *** criar_produto *)

Lemma criar_produto_ok (p : schemas.ProdutoCreate) (db : nat) (w : World) (k : int64) :
  in_int64 (schemas.estoque p) ->
  next_id (random_rowid w) (table w) = Some k ->
  criar_produto p db (fresh_session, w) =
  (Return 0%nat,
   (mkSession [load k (row_of_payload p)] [] [] [],
    touch db (set_table (<[k := row_of_payload p]> (table w)) (touch db w)))).
Proof.
  intros He Hk. unfold criar_produto, schemas.dict. exec.
  rewrite (row_of_bound None p He), Hk. reduce. rewrite to_int64_proj. reduce.
  rewrite lookup_insert_eq. reflexivity.
Qed.

Lemma criar_produto_overflow (p : schemas.ProdutoCreate) (db : nat) (w : World) :
  ~ in_int64 (schemas.estoque p) ->
  exists s, criar_produto p db (fresh_session, w) =
            (Raise OverflowError, (s, set_table (table w) (touch db w))).
Proof.
  intros He. unfold criar_produto, schemas.dict. exec.
  rewrite (row_of_overflow None p He). reduce. eexists. reflexivity.
Qed.

Lemma criar_produto_full (p : schemas.ProdutoCreate) (db : nat) (w : World) :
  in_int64 (schemas.estoque p) ->
  next_id (random_rowid w) (table w) = None ->
  exists s, criar_produto p db (fresh_session, w) =
            (Raise OperationalError, (s, set_table (table w) (touch db w))).
Proof.
  intros He Hk. unfold criar_produto, schemas.dict. exec.
  rewrite (row_of_bound None p He), Hk. reduce. eexists. reflexivity.
Qed.

(** *** obter_produto *)

Lemma obter_produto_hit (i : Z) (db : nat) (w : World) (k : int64) (row : Row) :
  to_int64 i = Some k ->
  table w !! k = Some row ->
  obter_produto i db (fresh_session, w) =
  (Return 0%nat, (mkSession [load k row] [] [] [], touch db w)).
Proof.
  intros Hk Ht. unfold obter_produto.
  erewrite bind_Return by (eapply query_hit; eassumption). reflexivity.
Qed.

Lemma obter_produto_miss (i : Z) (db : nat) (w : World) (k : int64) :
  to_int64 i = Some k ->
  table w !! k = None ->
  obter_produto i db (fresh_session, w) = (Raise not_found, (fresh_session, touch db w)).
Proof.
  intros Hk Ht. unfold obter_produto.
  erewrite bind_Return by (eapply query_miss; eassumption). reflexivity.
Qed.

Lemma obter_produto_overflow (i : Z) (db : nat) (w : World) :
  to_int64 i = None ->
  obter_produto i db (fresh_session, w) = (Raise OverflowError, (fresh_session, touch db w)).
Proof.
  intros Hk. unfold obter_produto.
  erewrite bind_Raise by (apply query_overflow; assumption). reflexivity.
Qed.

(** *** atualizar_produto *)

Lemma atualizar_produto_ok (i : Z) (dados : schemas.ProdutoCreate) (db : nat)
    (w : World) (k : int64) (row : Row) :
  to_int64 i = Some k ->
  table w !! k = Some row ->
  in_int64 (schemas.estoque dados) ->
  atualizar_produto i dados db (fresh_session, w) =
  (Return 0%nat,
   (mkSession [load k (row_of_payload dados)] [] [] [],
    touch db (set_table (alter (fun _ => row_of_payload dados) k (table w))
                        (touch db (touch db w))))).
Proof.
  intros Hk Ht He. unfold atualizar_produto.
  erewrite bind_Return by (eapply query_hit; eassumption).
  unfold schemas.dict. exec.
  rewrite to_int64_proj. reduce.
  rewrite (row_of_bound (Some (VInt k)) dados He). reduce.
  rewrite to_int64_proj. reduce.
  rewrite lookup_alter_eq, Ht. reflexivity.
Qed.

Lemma atualizar_produto_stock_overflow (i : Z) (dados : schemas.ProdutoCreate)
    (db : nat) (w : World) (k : int64) (row : Row) :
  to_int64 i = Some k ->
  table w !! k = Some row ->
  ~ in_int64 (schemas.estoque dados) ->
  exists s, atualizar_produto i dados db (fresh_session, w) =
            (Raise OverflowError, (s, set_table (table w) (touch db (touch db w)))).
Proof.
  intros Hk Ht He. unfold atualizar_produto.
  erewrite bind_Return by (eapply query_hit; eassumption).
  unfold schemas.dict. exec.
  rewrite to_int64_proj. reduce.
  rewrite (row_of_overflow (Some (VInt k)) dados He). reduce. eexists. reflexivity.
Qed.

Lemma atualizar_produto_miss (i : Z) (dados : schemas.ProdutoCreate) (db : nat)
    (w : World) (k : int64) :
  to_int64 i = Some k ->
  table w !! k = None ->
  atualizar_produto i dados db (fresh_session, w) =
  (Raise not_found, (fresh_session, touch db w)).
Proof.
  intros Hk Ht. unfold atualizar_produto.
  erewrite bind_Return by (eapply query_miss; eassumption). reflexivity.
Qed.

Lemma atualizar_produto_overflow (i : Z) (dados : schemas.ProdutoCreate) (db : nat)
    (w : World) :
  to_int64 i = None ->
  atualizar_produto i dados db (fresh_session, w) =
  (Raise OverflowError, (fresh_session, touch db w)).
Proof.
  intros Hk. unfold atualizar_produto.
  erewrite bind_Raise by (apply query_overflow; assumption). reflexivity.
Qed.

(** *** deletar_produto *)

Lemma deletar_produto_hit (i : Z) (db : nat) (w : World) (k : int64) (row : Row) :
  to_int64 i = Some k ->
  table w !! k = Some row ->
  deletar_produto i db (fresh_session, w) =
  (Return [("mensagem"%string, "Produto deletado com sucesso"%string)],
   (mkSession [load k row] [] [] [],
    set_table (delete k (table w)) (touch db (touch db w)))).
Proof.
  intros Hk Ht. unfold deletar_produto.
  erewrite bind_Return by (eapply query_hit; eassumption).
  exec. rewrite to_int64_proj. reflexivity.
Qed.

Lemma deletar_produto_miss (i : Z) (db : nat) (w : World) (k : int64) :
  to_int64 i = Some k ->
  table w !! k = None ->
  deletar_produto i db (fresh_session, w) = (Raise not_found, (fresh_session, touch db w)).
Proof.
  intros Hk Ht. unfold deletar_produto.
  erewrite bind_Return by (eapply query_miss; eassumption). reflexivity.
Qed.

Lemma deletar_produto_overflow (i : Z) (db : nat) (w : World) :
  to_int64 i = None ->
  deletar_produto i db (fresh_session, w) =
  (Raise OverflowError, (fresh_session, touch db w)).
Proof.
  intros Hk. unfold deletar_produto.
  erewrite bind_Raise by (apply query_overflow; assumption). reflexivity.
Qed.

(** *** listar_produtos *)

(** Loading a list of rows allocates one instance per row, in order. *)
Lemma collect_allocate (l : list (int64 * Row)) (s : Session) (w : World) :
  collect (fun kv => allocate (load (fst kv) (snd kv))) l (s, w) =
  (Return (seq (length (instances s)) (length l)),
   (mkSession (instances s ++ map (fun kv => load (fst kv) (snd kv)) l)
              (new s) (dirty s) (deleted s), w)).
Proof.
  revert s. induction l as [|kv l IH]; intros s.
  - cbn. rewrite app_nil_r. destruct s; reflexivity.
  - cbn [collect].
    erewrite bind_Return by reflexivity.
    erewrite bind_Return by apply IH.
    cbn. rewrite length_app, <- app_assoc. cbn.
    replace (length (instances s) + 1)%nat with (S (length (instances s))) by lia.
    reflexivity.
Qed.

Lemma listar_produtos_run (db : nat) (w : World) :
  listar_produtos db (fresh_session, w) =
  (Return (seq 0 (length (rows (table w)))),
   (mkSession (map (fun kv => load (fst kv) (snd kv)) (rows (table w))) [] [] [],
    touch db w)).
Proof.
  unfold listar_produtos, query_all.
  erewrite bind_Return by reflexivity.
  erewrite bind_Return by reflexivity.
  cbn [snd fst table touch]. rewrite collect_allocate. reflexivity.
Qed.

(** ** The routes, request by request *)

Lemma request_Return {A} (handler : nat -> DB A) serialize (w : World) a s w2 :
  handler (sessions_created w) (fresh_session, (SessionLocal w).2) = (Return a, (s, w2)) ->
  request handler serialize w =
  (match serialize a s with Some b => Ok b | None => internal_error end,
   close (sessions_created w) w2).
Proof. intros H. unfold request. cbn in *. rewrite H. reflexivity. Qed.

Lemma request_Raise {A} (handler : nat -> DB A) serialize (w : World) e s w2 :
  handler (sessions_created w) (fresh_session, (SessionLocal w).2) = (Raise e, (s, w2)) ->
  request handler serialize w =
  (response_of_exn e, close (sessions_created w) w2).
Proof. intros H. unfold request. cbn in *. rewrite H. reflexivity. Qed.

Lemma serialize_load (k : int64) (row : Row) :
  (p ← from_orm (load k row); Some (render p)) = entity k row.
Proof. destruct row as [n [f|] e]; reflexivity. Qed.

(** Serializing the references to freshly loaded rows gives the bodies
    of the rows, when each has one. *)
Lemma serialize_loaded (h : list models.Produto) (l : list (int64 * Row)) :
  mapM (fun r => o ← (h ++ map (fun kv => load (fst kv) (snd kv)) l) !! r;
                 p ← from_orm o; Some (render p))
       (seq (length h) (length l))
  = mapM (fun kv => entity (fst kv) (snd kv)) l.
Proof.
  revert h. induction l as [|kv l IH]; intros h; [reflexivity|].
  cbn [map length seq mapM].
  rewrite lookup_app_r by lia. rewrite Nat.sub_diag. cbn [lookup list_lookup].
  specialize (IH (h ++ [load (fst kv) (snd kv)])).
  rewrite length_app, <- app_assoc in IH. cbn [length app] in IH.
  replace (length h + 1)%nat with (S (length h)) in IH by lia.
  rewrite IH.
  change (Some (load kv.1 kv.2) ≫= _) with (p ← from_orm (load kv.1 kv.2); Some (render p)).
  rewrite serialize_load. reflexivity.
Qed.

Lemma serialize_Produto_load (k : int64) (row : Row) n d x :
  match serialize_Produto 0 (mkSession [load k row] n d x) with
  | Some b => Ok b
  | None => internal_error
  end = response_of_entity (entity k row).
Proof. destruct row as [nm [f|] e]; reflexivity. Qed.

Lemma post_produtos_ok (p : schemas.ProdutoCreate) (w : World) (k : int64) :
  in_int64 (schemas.estoque p) ->
  next_id (random_rowid w) (table w) = Some k ->
  post_produtos p w =
  (response_of_entity (entity k (row_of_payload p)),
   finished (<[k := row_of_payload p]> (table w)) 2 w).
Proof.
  intros He Hk. unfold post_produtos.
  erewrite request_Return by (apply criar_produto_ok; [exact He | exact Hk]).
  rewrite serialize_Produto_load. reflexivity.
Qed.

Lemma post_produtos_overflow (p : schemas.ProdutoCreate) (w : World) :
  ~ in_int64 (schemas.estoque p) ->
  post_produtos p w = (internal_error, finished (table w) 1 w).
Proof.
  intros He. unfold post_produtos.
  destruct (criar_produto_overflow p (sessions_created w) (SessionLocal w).2 He)
    as [s Hs].
  erewrite request_Raise by exact Hs. reflexivity.
Qed.

Lemma post_produtos_full (p : schemas.ProdutoCreate) (w : World) :
  in_int64 (schemas.estoque p) ->
  next_id (random_rowid w) (table w) = None ->
  post_produtos p w = (internal_error, finished (table w) 1 w).
Proof.
  intros He Hk. unfold post_produtos.
  destruct (criar_produto_full p (sessions_created w) (SessionLocal w).2 He Hk)
    as [s Hs].
  erewrite request_Raise by exact Hs. reflexivity.
Qed.

Lemma get_produtos_run (w : World) :
  get_produtos w =
  (match entities (table w) with Some l => Ok (JLista l) | None => internal_error end,
   finished (table w) 1 w).
Proof.
  unfold get_produtos.
  erewrite request_Return by apply listar_produtos_run.
  unfold serialize_list. cbn [instances].
  pose proof (serialize_loaded [] (rows (table (SessionLocal w).2))) as H.
  cbn [app length] in H. rewrite H. clear H.
  change (table (SessionLocal w).2) with (table w). unfold entities.
  destruct (mapM _ (rows (table w))); reflexivity.
Qed.

Lemma get_produto_hit (i : Z) (w : World) (k : int64) (row : Row) :
  to_int64 i = Some k ->
  table w !! k = Some row ->
  get_produto i w = (response_of_entity (entity k row), finished (table w) 1 w).
Proof.
  intros Hk Ht. unfold get_produto.
  erewrite request_Return by (eapply obter_produto_hit; [exact Hk | exact Ht]).
  rewrite serialize_Produto_load. reflexivity.
Qed.

Lemma get_produto_miss (i : Z) (w : World) (k : int64) :
  to_int64 i = Some k ->
  table w !! k = None ->
  get_produto i w = (not_found_response, finished (table w) 1 w).
Proof.
  intros Hk Ht. unfold get_produto.
  erewrite request_Raise by (eapply obter_produto_miss; [exact Hk | exact Ht]).
  reflexivity.
Qed.

Lemma get_produto_overflow (i : Z) (w : World) :
  to_int64 i = None ->
  get_produto i w = (internal_error, finished (table w) 1 w).
Proof.
  intros Hk. unfold get_produto.
  erewrite request_Raise by (eapply obter_produto_overflow; exact Hk).
  reflexivity.
Qed.

Lemma put_produto_ok (i : Z) (dados : schemas.ProdutoCreate) (w : World)
    (k : int64) (row : Row) :
  to_int64 i = Some k ->
  table w !! k = Some row ->
  in_int64 (schemas.estoque dados) ->
  put_produto i dados w =
  (response_of_entity (entity k (row_of_payload dados)),
   finished (alter (fun _ => row_of_payload dados) k (table w)) 3 w).
Proof.
  intros Hk Ht He. unfold put_produto.
  erewrite request_Return
    by (eapply atualizar_produto_ok; [exact Hk | exact Ht | exact He]).
  rewrite serialize_Produto_load. reflexivity.
Qed.

Lemma put_produto_stock_overflow (i : Z) (dados : schemas.ProdutoCreate) (w : World)
    (k : int64) (row : Row) :
  to_int64 i = Some k ->
  table w !! k = Some row ->
  ~ in_int64 (schemas.estoque dados) ->
  put_produto i dados w = (internal_error, finished (table w) 2 w).
Proof.
  intros Hk Ht He. unfold put_produto.
  destruct (atualizar_produto_stock_overflow i dados (sessions_created w)
              (SessionLocal w).2 k row Hk Ht He) as [s Hs].
  erewrite request_Raise by exact Hs. reflexivity.
Qed.

Lemma put_produto_miss (i : Z) (dados : schemas.ProdutoCreate) (w : World) (k : int64) :
  to_int64 i = Some k ->
  table w !! k = None ->
  put_produto i dados w = (not_found_response, finished (table w) 1 w).
Proof.
  intros Hk Ht. unfold put_produto.
  erewrite request_Raise by (eapply atualizar_produto_miss; [exact Hk | exact Ht]).
  reflexivity.
Qed.

Lemma put_produto_overflow (i : Z) (dados : schemas.ProdutoCreate) (w : World) :
  to_int64 i = None ->
  put_produto i dados w = (internal_error, finished (table w) 1 w).
Proof.
  intros Hk. unfold put_produto.
  erewrite request_Raise by (eapply atualizar_produto_overflow; exact Hk).
  reflexivity.
Qed.

Lemma delete_produto_hit (i : Z) (w : World) (k : int64) (row : Row) :
  to_int64 i = Some k ->
  table w !! k = Some row ->
  delete_produto i w = (Ok deleted_body, finished (delete k (table w)) 2 w).
Proof.
  intros Hk Ht. unfold delete_produto.
  erewrite request_Return by (eapply deletar_produto_hit; [exact Hk | exact Ht]).
  reflexivity.
Qed.

Lemma delete_produto_miss (i : Z) (w : World) (k : int64) :
  to_int64 i = Some k ->
  table w !! k = None ->
  delete_produto i w = (not_found_response, finished (table w) 1 w).
Proof.
  intros Hk Ht. unfold delete_produto.
  erewrite request_Raise by (eapply deletar_produto_miss; [exact Hk | exact Ht]).
  reflexivity.
Qed.

Lemma delete_produto_overflow (i : Z) (w : World) :
  to_int64 i = None ->
  delete_produto i w = (internal_error, finished (table w) 1 w).
Proof.
  intros Hk. unfold delete_produto.
  erewrite request_Raise by (eapply deletar_produto_overflow; exact Hk).
  reflexivity.
Qed.

Lemma alter_absent (t : Table) (k : int64) (f : Row -> Row) :
  t !! k = None -> alter f k t = t.
Proof.
  intros Ht. apply map_eq. intros j.
  destruct (decide (k = j)) as [<-|Hne].
  - rewrite lookup_alter_eq, Ht. reflexivity.
  - apply lookup_alter_ne. assumption.
Qed.

Lemma delete_absent (t : Table) (k : int64) : t !! k = None -> delete k t = t.
Proof.
  intros Ht. apply map_eq. intros j.
  destruct (decide (k = j)) as [<-|Hne].
  - rewrite lookup_delete_eq. symmetry. assumption.
  - apply lookup_delete_ne. assumption.
Qed.

(** Every request, as a function of the world it finds: the response,
    the table, and a session opened, used and closed. *)
Lemma serve_run (r : Request) (w : World) :
  exists uses, (1 <= uses)%nat /\
    serve r w = (response_for r w, finished (table_after r w) uses w).
Proof.
  destruct r as [p| |i|i d|i]; cbn [serve response_for table_after].
  - destruct (decide (in_int64 (schemas.estoque p))) as [He|He].
    + destruct (next_id (random_rowid w) (table w)) as [k|] eqn:Hk.
      * exists 2%nat. split; [lia | apply post_produtos_ok; assumption].
      * exists 1%nat. split; [lia | apply post_produtos_full; assumption].
    + exists 1%nat. split; [lia | apply post_produtos_overflow; assumption].
  - exists 1%nat. split; [lia | apply get_produtos_run].
  - destruct (to_int64 i) as [k|] eqn:Hk.
    + destruct (table w !! k) as [row|] eqn:Ht.
      * exists 1%nat. split; [lia | eapply get_produto_hit; eassumption].
      * exists 1%nat. split; [lia | eapply get_produto_miss; eassumption].
    + exists 1%nat. split; [lia | apply get_produto_overflow; assumption].
  - destruct (to_int64 i) as [k|] eqn:Hk.
    + destruct (table w !! k) as [row|] eqn:Ht.
      * destruct (decide (in_int64 (schemas.estoque d))) as [He|He].
        -- exists 3%nat. split; [lia | eapply put_produto_ok; eassumption].
        -- exists 2%nat. split; [lia | eapply put_produto_stock_overflow; eassumption].
      * exists 1%nat. split; [lia|].
        erewrite put_produto_miss by eassumption.
        destruct (decide (in_int64 (schemas.estoque d)));
          rewrite ?alter_absent by assumption; reflexivity.
    + exists 1%nat. split; [lia | apply put_produto_overflow; assumption].
  - destruct (to_int64 i) as [k|] eqn:Hk.
    + destruct (table w !! k) as [row|] eqn:Ht.
      * exists 2%nat. split; [lia | eapply delete_produto_hit; eassumption].
      * exists 1%nat. split; [lia|].
        erewrite delete_produto_miss by eassumption.
        rewrite delete_absent by assumption. reflexivity.
    + exists 1%nat. split; [lia | apply delete_produto_overflow; assumption].
Qed.


Lemma serve_response (r : Request) (w : World) : (serve r w).1 = response_for r w.
Proof. destruct (serve_run r w) as (u & _ & ->). reflexivity. Qed.

Lemma serve_table (r : Request) (w : World) : table (serve r w).2 = table_after r w.
Proof. destruct (serve_run r w) as (u & _ & ->). reflexivity. Qed.

Lemma serve_random (r : Request) (w : World) :
  random_rowid (serve r w).2 = random_rowid w.
Proof. destruct (serve_run r w) as (u & _ & ->). reflexivity. Qed.

Lemma serve_created (r : Request) (w : World) :
  sessions_created (serve r w).2 = S (sessions_created w).
Proof. destruct (serve_run r w) as (u & _ & ->). reflexivity. Qed.

Lemma elem_of_acquire (s db : nat) (open : gset nat) :
  s ∈ acquire db open <-> s = db \/ s ∈ open.
Proof. unfold acquire. rewrite elem_of_union, elem_of_singleton. reflexivity. Qed.

Lemma elem_of_release (s db : nat) (open : gset nat) :
  s ∈ release db open <-> s ∈ open /\ s <> db.
Proof. unfold release. rewrite elem_of_difference, elem_of_singleton. reflexivity. Qed.

Lemma elem_of_iter_acquire (s db n : nat) (open : gset nat) :
  s ∈ Nat.iter n (acquire db) (acquire db open) <-> s = db \/ s ∈ open.
Proof.
  induction n as [|n IH]; cbn [Nat.iter nat_rect].
  - apply elem_of_acquire.
  - rewrite elem_of_acquire, IH. tauto.
Qed.

Lemma elem_of_open_finished (s : nat) (t : Table) (u : nat) (w : World) :
  s ∈ open_sessions (finished t u w) <-> s ∈ open_sessions w /\ s <> sessions_created w.
Proof.
  unfold finished. cbn [open_sessions].
  rewrite elem_of_release, elem_of_iter_acquire. tauto.
Qed.

Lemma serve_open (r : Request) (w : World) (s : nat) :
  s ∈ open_sessions (serve r w).2 <-> s ∈ open_sessions w /\ s <> sessions_created w.
Proof. destruct (serve_run r w) as (u & _ & ->). apply elem_of_open_finished. Qed.

(** The routes read as requests served. *)
Ltac as_serve :=
  repeat match goal with
    | |- context [post_produtos ?p ?w] =>
        change (post_produtos p w) with (serve (POST p) w)
    | |- context [get_produtos ?w] =>
        change (get_produtos w) with (serve GET_all w)
    | |- context [get_produto ?i ?w] =>
        change (get_produto i w) with (serve (GET i) w)
    | |- context [put_produto ?i ?d ?w] =>
        change (put_produto i d w) with (serve (PUT i d) w)
    | |- context [delete_produto ?i ?w] =>
        change (delete_produto i w) with (serve (DELETE i) w)
    end.

Ltac as_serve_in H :=
  repeat match type of H with
    | context [post_produtos ?p ?w] =>
        change (post_produtos p w) with (serve (POST p) w) in H
    | context [get_produtos ?w] =>
        change (get_produtos w) with (serve GET_all w) in H
    | context [get_produto ?i ?w] =>
        change (get_produto i w) with (serve (GET i) w) in H
    | context [put_produto ?i ?d ?w] =>
        change (put_produto i d w) with (serve (PUT i d) w) in H
    | context [delete_produto ?i ?w] =>
        change (delete_produto i w) with (serve (DELETE i) w) in H
    end.

(** ** Floats through the store and the body *)

(** A float as SQLite reads it back. *)
Lemma bind_float_not_nan (f : float) :
  is_nan f = false -> bind_float f = Some (if is_zero f then zero else f).
Proof. intros H. unfold bind_float. rewrite H. destruct (is_zero f); reflexivity. Qed.

Lemma bind_float_nan (f : float) : is_nan f = true -> bind_float f = None.
Proof. intros H. unfold bind_float. rewrite H. reflexivity. Qed.

Lemma bind_float_is_Some (f : float) : is_Some (bind_float f) <-> is_nan f = false.
Proof.
  unfold bind_float. destruct (is_nan f); [|destruct (is_zero f)];
    split; intros H; try discriminate H; try reflexivity; eauto.
  destruct H as [x Hx]. discriminate.
Qed.


Lemma entity_id (k : int64) (row : Row) (e : json.Produto) :
  entity k row = Some e -> json.id e = int64_Z k.
Proof. destruct row as [n [f|] s]; cbn; intros [= <-]; reflexivity. Qed.

(** ** The listing *)

Section mapM_facts.
Context {A B : Type} (f : A -> option B).

Lemma mapM_elem_of (l : list A) (k : list B) (y : B) :
  mapM f l = Some k -> (y ∈ k <-> exists x, x ∈ l /\ f x = Some y).
Proof.
  rewrite mapM_Some. induction 1 as [|x y' l k Hxy HF IH].
  - split; [intros H; inversion H | intros (x & H & _); inversion H].
  - rewrite elem_of_cons, IH. split.
    + intros [->|(x' & Hx' & Hf)].
      * exists x. split; [left | assumption].
      * exists x'. split; [right; assumption | assumption].
    + intros (x' & Hx' & Hf). apply elem_of_cons in Hx' as [->|Hx'].
      * left. congruence.
      * right. eauto.
Qed.


Lemma mapM_Permutation (l1 l2 : list A) (k1 : list B) :
  l1 ≡ₚ l2 -> mapM f l1 = Some k1 ->
  exists k2, mapM f l2 = Some k2 /\ k1 ≡ₚ k2.
Proof.
  intros Hp H. apply mapM_Some in H.
  destruct (Permutation_Forall2 Hp H) as (k2 & Hk & HF).
  exists k2. split; [apply mapM_Some; assumption | assumption].
Qed.

Lemma mapM_cons_Some (x : A) (l : list A) (y : B) (k : list B) :
  f x = Some y -> mapM f l = Some k -> mapM f (x :: l) = Some (y :: k).
Proof. intros Hx Hl. cbn. rewrite Hx. cbn. rewrite Hl. reflexivity. Qed.

Lemma mapM_cons_inv (x : A) (l : list A) (k : list B) :
  mapM f (x :: l) = Some k ->
  exists y k', f x = Some y /\ mapM f l = Some k' /\ k = y :: k'.
Proof.
  rewrite mapM_Some. intros H. inversion H as [|? y ? k' Hxy HF]; subst.
  exists y, k'. split; [assumption|]. split; [apply mapM_Some; assumption | reflexivity].
Qed.
End mapM_facts.

Lemma rows_Permutation (t : Table) : rows t ≡ₚ map_to_list t.
Proof. apply merge_sort_Permutation. Qed.

Lemma elem_of_rows (t : Table) (k : int64) (row : Row) :
  (k, row) ∈ rows t <-> t !! k = Some row.
Proof. rewrite rows_Permutation. apply elem_of_map_to_list. Qed.



Lemma rows_insert_fresh (t : Table) (k : int64) (row : Row) :
  t !! k = None -> rows (<[k := row]> t) ≡ₚ (k, row) :: rows t.
Proof.
  intros Ht. rewrite !rows_Permutation. apply map_to_list_insert. assumption.
Qed.

Lemma rows_delete (t : Table) (k : int64) (row : Row) :
  t !! k = Some row -> rows t ≡ₚ (k, row) :: rows (delete k t).
Proof.
  intros Ht. rewrite !rows_Permutation. symmetry. apply map_to_list_delete. assumption.
Qed.


Lemma elem_of_entities (t : Table) (l : list json.Produto) (e : json.Produto) :
  entities t = Some l ->
  (e ∈ l <-> exists k row, t !! k = Some row /\ entity k row = Some e).
Proof.
  intros H. rewrite (mapM_elem_of _ _ _ e H). split.
  - intros ([k row] & Hin & He). exists k, row. split; [|assumption].
    apply elem_of_rows. assumption.
  - intros (k & row & Ht & He). exists (k, row). split; [|assumption].
    apply elem_of_rows. assumption.
Qed.




Lemma entities_insert_fresh (t : Table) (k : int64) (row : Row)
    (l : list json.Produto) (e : json.Produto) :
  t !! k = None -> entities t = Some l -> entity k row = Some e ->
  exists l', entities (<[k := row]> t) = Some l' /\ l' ≡ₚ e :: l.
Proof.
  intros Ht Hl He.
  assert (H : mapM (fun kv => entity (fst kv) (snd kv)) ((k, row) :: rows t)
              = Some (e :: l)) by (apply mapM_cons_Some; assumption).
  destruct (mapM_Permutation _ _ _ _ (symmetry (rows_insert_fresh t k row Ht)) H)
    as (l' & Hl' & Hp).
  exists l'. split; [exact Hl' | symmetry; exact Hp].
Qed.

Lemma entities_delete (t : Table) (k : int64) (row : Row) (l : list json.Produto) :
  t !! k = Some row -> entities t = Some l ->
  exists e l', entity k row = Some e /\ entities (delete k t) = Some l' /\ l ≡ₚ e :: l'.
Proof.
  intros Ht Hl.
  destruct (mapM_Permutation _ _ _ _ (rows_delete t k row Ht) Hl) as (l2 & Hl2 & Hp).
  apply mapM_cons_inv in Hl2 as (e & l' & He & Hl' & ->).
  exists e, l'. split; [exact He|]. split; [exact Hl' | exact Hp].
Qed.

Lemma entity_payload (k : int64) (p : schemas.ProdutoCreate) :
  is_nan (schemas.preco p) = false ->
  entity k (row_of_payload p) = Some (body_of k p).
Proof.
  intros H. unfold entity, row_of_payload. cbn [col_preco col_nome col_estoque].
  rewrite (bind_float_not_nan _ H). reflexivity.
Qed.

Lemma entity_payload_nan (k : int64) (p : schemas.ProdutoCreate) :
  is_nan (schemas.preco p) = true -> entity k (row_of_payload p) = None.
Proof.
  intros H. unfold entity, row_of_payload. cbn [col_preco].
  rewrite (bind_float_nan _ H). reflexivity.
Qed.

Lemma post_succeeds (p : schemas.ProdutoCreate) (w : World) (b : Body) :
  response_for (POST p) w = Ok b ->
  exists k, in_int64 (schemas.estoque p) /\
            is_nan (schemas.preco p) = false /\
            next_id (random_rowid w) (table w) = Some k /\
            b = JProduto (body_of k p).
Proof.
  cbn [response_for].
  destruct (decide (in_int64 (schemas.estoque p))) as [He|He]; [|discriminate].
  destruct (next_id (random_rowid w) (table w)) as [k|]; [|discriminate].
  destruct (is_nan (schemas.preco p)) eqn:Hn.
  - rewrite (entity_payload_nan k p Hn). discriminate.
  - rewrite (entity_payload k p Hn). intros [= <-]. exists k. auto.
Qed.

Lemma put_succeeds (i : Z) (d : schemas.ProdutoCreate) (w : World) (b : Body) :
  response_for (PUT i d) w = Ok b ->
  exists k, to_int64 i = Some k /\
            is_Some (table w !! k) /\
            in_int64 (schemas.estoque d) /\
            is_nan (schemas.preco d) = false /\
            b = JProduto (body_of k d).
Proof.
  cbn [response_for].
  destruct (to_int64 i) as [k|]; [|discriminate].
  destruct (table w !! k) as [row|] eqn:Ht; [|discriminate].
  destruct (decide (in_int64 (schemas.estoque d))) as [He|He]; [|discriminate].
  destruct (is_nan (schemas.preco d)) eqn:Hn.
  - rewrite (entity_payload_nan k d Hn). discriminate.
  - rewrite (entity_payload k d Hn). intros [= <-]. exists k. eauto 10.
Qed.

(** ** Create and read back *)



(** ** Update *)



(** ** Not found *)

(** C3. For each of the three routes addressed by an id, the response
    is the 404 error with the message "Produto não encontrado" exactly
    when the id is a signed 64-bit integer and the table has no row
    under it; an id outside that range is answered with the server
    error on the three routes. *)
Theorem not_found_iff_absent (w : World) (i : Z) (dados : schemas.ProdutoCreate) :
  ((get_produto i w).1 = Error 404 "Produto não encontrado" <->
   exists k, to_int64 i = Some k /\ table w !! k = None) /\
  ((put_produto i dados w).1 = Error 404 "Produto não encontrado" <->
   exists k, to_int64 i = Some k /\ table w !! k = None) /\
  ((delete_produto i w).1 = Error 404 "Produto não encontrado" <->
   exists k, to_int64 i = Some k /\ table w !! k = None) /\
  (~ in_int64 i ->
   (get_produto i w).1 = Error 500 "Internal Server Error" /\
   (put_produto i dados w).1 = Error 500 "Internal Server Error" /\
   (delete_produto i w).1 = Error 500 "Internal Server Error").
Proof.
  as_serve. rewrite !serve_response. cbn [response_for].
  destruct (to_int64 i) as [k|] eqn:Hk.
  - assert (Hin : in_int64 i).
    { rewrite <- (to_int64_Some i k Hk). apply int64_in_range. }
    assert (Hex : (exists k', Some k = Some k' /\ table w !! k' = None)
                  <-> table w !! k = None).
    { split; [intros (k' & Hk' & Hnone); congruence | eauto]. }
    rewrite Hex. clear Hex.
    destruct (table w !! k) as [row|] eqn:Ht.
    + split; [|split; [|split]]; try contradiction.
      * split; [|discriminate]. destruct (entity k row); discriminate.
      * split; [|discriminate].
        destruct (decide (in_int64 (schemas.estoque dados)));
          [destruct (entity k (row_of_payload dados))|]; discriminate.
      * split; discriminate.
    + split; [|split; [|split]]; try contradiction; split; reflexivity.
  - apply to_int64_None in Hk.
    assert (Hex : (exists k' : int64, @None int64 = Some k' /\ table w !! k' = None)
                  <-> False).
    { split; [intros (k' & Hk' & _); discriminate | contradiction]. }
    rewrite Hex. clear Hex.
    split; [|split; [|split]]; try (split; [discriminate | contradiction]).
    intros _. repeat split.
Qed.

(** C3 does not hold as it is stated: on an empty store id 2^63 has no
    row, yet reading, updating and deleting it are answered with the
    server error, not with the 404 error. *)
Lemma not_found_iff_absent_counterexample :
  table empty_world = ∅ /\
  (get_produto (2 ^ 63) empty_world).1 = Error 500 "Internal Server Error" /\
  (put_produto (2 ^ 63) caneta empty_world).1 = Error 500 "Internal Server Error" /\
  (delete_produto (2 ^ 63) empty_world).1 = Error 500 "Internal Server Error".
Proof. repeat split; vm_compute; reflexivity. Qed.

(** C6. Updating an id that has no row leaves the table as it was: no
    row appears and none changes. The answer is the 404 error when the id
    is a signed 64-bit integer, and the server error otherwise. *)
Theorem atualizar_absent_unchanged (w : World) (i : Z) (dados : schemas.ProdutoCreate) :
  (forall k, to_int64 i = Some k -> table w !! k = None) ->
  table (put_produto i dados w).2 = table w /\
  (in_int64 i -> (put_produto i dados w).1 = Error 404 "Produto não encontrado") /\
  (~ in_int64 i -> (put_produto i dados w).1 = Error 500 "Internal Server Error").
Proof.
  intros Habs. as_serve. rewrite serve_response, serve_table.
  cbn [response_for table_after].
  destruct (to_int64 i) as [k|] eqn:Hk.
  - assert (Hin : in_int64 i).
    { rewrite <- (to_int64_Some i k Hk). apply int64_in_range. }
    rewrite (Habs k eq_refl). split; [|split; [reflexivity | tauto]].
    destruct (decide (in_int64 (schemas.estoque dados))); [|reflexivity].
    apply alter_absent, Habs. reflexivity.
  - apply to_int64_None in Hk. split; [reflexivity|]. split; [tauto | reflexivity].
Qed.

(** C6 does not hold as it is stated: updating id -2^63 - 1, which no
    row has, is answered with the server error, not with the 404
    error. *)
Lemma atualizar_absent_unchanged_counterexample :
  table world_caneta = {[key_1 := row_caneta]} /\
  (put_produto (- 2 ^ 63 - 1) caneta_azul world_caneta).1
    = Error 500 "Internal Server Error".
Proof. split; [reflexivity | vm_compute; reflexivity]. Qed.

(** C10. Listing, and reading one id whether it is found or not, leave
    the table exactly as it was. *)
Theorem reads_leave_table (w : World) (i : Z) :
  table (get_produtos w).2 = table w /\
  table (get_produto i w).2 = table w.
Proof. as_serve. rewrite !serve_table. split; reflexivity. Qed.

(** ** Delete *)

(** C4. When the table has a row with the given id, the delete answers
    with the fixed acknowledgment and nothing else; the row is gone from
    the committed table and the other rows stay; reading that id
    afterwards, and deleting it again, both answer with the 404 error. *)
Theorem deletar_removes (w : World) (k : int64) (row : Row) :
  table w !! k = Some row ->
  exists w' : World,
    delete_produto k w =
      (Ok (JDict [("mensagem"%string, "Produto deletado com sucesso"%string)]), w') /\
    table w' !! k = None /\
    (forall j, j <> k -> table w' !! j = table w !! j) /\
    (get_produto k w').1 = Error 404 "Produto não encontrado" /\
    (delete_produto k w').1 = Error 404 "Produto não encontrado".
Proof.
  intros Ht. eexists. split.
  { rewrite (delete_produto_hit k w k row (to_int64_proj k) Ht). reflexivity. }
  cbn [finished table].
  assert (Hk : delete k (table w) !! k = None) by apply lookup_delete_eq.
  split; [exact Hk|]. split.
  { intros j Hj. apply lookup_delete_ne. congruence. }
  split.
  - erewrite get_produto_miss; [reflexivity | apply to_int64_proj | exact Hk].
  - erewrite delete_produto_miss; [reflexivity | apply to_int64_proj | exact Hk].
Qed.

(** ** The first product *)

(** C8. On an empty table, creating the product Caneta with price 2.5
    and stock 100 answers with that product under id 1. *)
Theorem first_product_has_id_1 (open : gset nat) (created : nat) (events : list Event)
    (random : Table -> option Z) :
  (post_produtos (schemas.mkProdutoBase "Caneta" 2.5%float 100)
                 (mkWorld ∅ open created events random)).1
  = Ok (JProduto (json.mkProduto 1 "Caneta" (Some 2.5%float) 100)).
Proof.
  erewrite (post_produtos_ok _ _ key_1).
  - reflexivity.
  - vm_compute. split; discriminate.
  - reflexivity.
Qed.

(** ** The session of a request *)

(** C9. A request takes exactly one session from the factory before
    its handler runs: the generator creates it, it is open when it is
    yielded, and it is the session the handler is called with. Whatever
    the handler does with it and in whatever world it leaves off,
    returning or raising, the session is closed after the handler is
    done: closing is the last thing that happens, after everything the
    handler did, the session is not open when the request ends, and
    nothing else of what the handler left is changed. On each of the
    five routes the session is opened, then used by the handler at
    least once, then closed; it is not open when the request ends, and
    no other session is opened or closed. *)
Theorem get_db_closes_session {A} (handler : nat -> DB A)
    (serialize : A -> Session -> option Body) (r : Request) (w : World) :
  let db := sessions_created w in
  (exists w1 out s w2,
     get_db_next get_db_start w = (get_db_yielded db, Some db, w1) /\
     (db ∈ open_sessions w1) /\
     sessions_created w1 = S db /\
     trace w1 = Opened db :: trace w /\
     handler db (fresh_session, w1) = (out, (s, w2)) /\
     trace (request handler serialize w).2 = Closed db :: trace w2 /\
     (db ∉ open_sessions (request handler serialize w).2) /\
     (forall s', s' <> db ->
        (s' ∈ open_sessions (request handler serialize w).2) <-> (s' ∈ open_sessions w2)) /\
     table (request handler serialize w).2 = table w2 /\
     sessions_created (request handler serialize w).2 = sessions_created w2) /\
  (exists uses, (1 <= uses)%nat /\
     trace (serve r w).2 = Closed db :: replicate uses (Used db) ++ Opened db :: trace w) /\
  sessions_created (serve r w).2 = S db /\
  (db ∉ open_sessions (serve r w).2) /\
  (forall s, s <> db -> (s ∈ open_sessions (serve r w).2) <-> (s ∈ open_sessions w)).
Proof.
  intros db. subst db. split; [|split; [|split; [|split]]].
  - assert (Hclose : forall out s w2,
              handler (sessions_created w) (fresh_session, (SessionLocal w).2)
                = (out, (s, w2)) ->
              (request handler serialize w).2 = close (sessions_created w) w2).
    { intros [a|e] s w2 E.
      - erewrite request_Return by exact E. reflexivity.
      - erewrite request_Raise by exact E. reflexivity. }
    destruct (handler (sessions_created w) (fresh_session, (SessionLocal w).2))
      as [out [s w2]] eqn:E.
    exists (SessionLocal w).2, out, s, w2.
    rewrite (Hclose out s w2 eq_refl). cbn [close open_sessions sessions_created trace table].
    split; [reflexivity|].
    split; [apply elem_of_acquire; left; reflexivity|].
    split; [reflexivity|]. split; [reflexivity|]. split; [exact E|].
    split; [reflexivity|].
    split; [rewrite elem_of_release; tauto|].
    split; [intros s' Hs'; rewrite elem_of_release; tauto|].
    split; reflexivity.
  - destruct (serve_run r w) as (u & Hu & ->). exists u. split; [exact Hu | reflexivity].
  - apply serve_created.
  - rewrite serve_open. tauto.
  - intros s Hs. rewrite serve_open. tauto.
Qed.

(** ** Runs of requests *)

Lemma serve_all_cons (r : Request) (rs : list Request) (w : World) :
  serve_all (r :: rs) w =
  ((serve r w).1 :: (serve_all rs (serve r w).2).1, (serve_all rs (serve r w).2).2).
Proof.
  cbn [serve_all]. destruct (serve r w) as [resp w1]. cbn [fst snd].
  destruct (serve_all rs w1) as [resps w2]. reflexivity.
Qed.

Lemma to_int64_ne (i : Z) (k k' : int64) :
  to_int64 i = Some k' -> i <> int64_Z k -> k' <> k.
Proof. intros Hk Hne ->. apply Hne. symmetry. apply to_int64_Some. assumption. Qed.


(** A request that does not delete an id leaves a row under it. *)
Lemma table_after_keeps_key (r : Request) (w : World) (k : int64) :
  r <> DELETE k -> is_Some (table w !! k) -> is_Some (table_after r w !! k).
Proof.
  intros Hdel Ht. destruct r as [p| |j|j d|j]; cbn [table_after]; try assumption.
  - destruct (decide (in_int64 (schemas.estoque p))); [|assumption].
    destruct (next_id (random_rowid w) (table w)) as [k'|]; [|assumption].
    rewrite lookup_insert_is_Some. destruct (decide (k' = k)); [left|right]; auto.
  - destruct (to_int64 j) as [k'|]; [|assumption].
    destruct (decide (in_int64 (schemas.estoque d))); [|assumption].
    apply lookup_alter_is_Some. assumption.
  - destruct (to_int64 j) as [k'|] eqn:Hk; [|assumption].
    rewrite lookup_delete_ne; [assumption|].
    apply (to_int64_ne j); [assumption|]. intros ->. exact (Hdel eq_refl).
Qed.

(** What a request does to the number of rows. *)
Lemma table_after_size (r : Request) (w : World) :
  (size (table w) + (if carries_product (response_for r w) && is_POST r then 1 else 0)
   <= size (table_after r w) + (if acknowledged (response_for r w) then 1 else 0)
   <= size (table w) + (if is_POST r then 1 else 0))%nat.
Proof.
  destruct r as [p| |j|j d|j];
    cbn [table_after response_for is_POST carries_product acknowledged andb].
  - destruct (decide (in_int64 (schemas.estoque p))); [|cbn; lia].
    destruct (next_id (random_rowid w) (table w)) as [k|] eqn:Hk; [|cbn; lia].
    rewrite map_size_insert_None by (eapply next_id_fresh; eassumption).
    destruct (entity k (row_of_payload p)); cbn; lia.
  - rewrite andb_false_r. destruct (entities (table w)); cbn; lia.
  - rewrite andb_false_r. destruct (to_int64 j) as [k|]; [|cbn; lia].
    destruct (table w !! k) as [row|]; [destruct (entity k row)|]; cbn; lia.
  - rewrite andb_false_r. destruct (to_int64 j) as [k|]; [|cbn; lia].
    destruct (table w !! k) as [row|] eqn:Ht.
    + destruct (decide (in_int64 (schemas.estoque d))); [|cbn; lia].
      rewrite (alter_alt_Some _ _ _ _ Ht), map_size_insert_Some by eauto.
      destruct (entity k (row_of_payload d)); cbn; lia.
    + destruct (decide (in_int64 (schemas.estoque d)));
        rewrite ?alter_absent by assumption; cbn; lia.
  - rewrite andb_false_r. destruct (to_int64 j) as [k|]; [|cbn; lia].
    destruct (table w !! k) as [row|] eqn:Ht; cbn [acknowledged deleted_body not_found_response].
    + assert (Hs : size (table w) = S (size (delete k (table w)))).
      { rewrite <- (insert_delete_id _ _ _ Ht) at 1.
        apply map_size_insert_None, lookup_delete_eq. }
      lia.
    + rewrite delete_absent by assumption. lia.
Qed.


Lemma serve_all_keeps_key (rs : list Request) (w : World) (k : int64) :
  DELETE k ∉ rs -> is_Some (table w !! k) -> is_Some (table (serve_all rs w).2 !! k).
Proof.
  revert w. induction rs as [|r rs IH]; intros w Hrs Ht; [assumption|].
  apply not_elem_of_cons in Hrs as [Hr Hrs]. rewrite serve_all_cons. cbn [snd].
  apply IH; [assumption|]. rewrite serve_table.
  apply table_after_keeps_key; [congruence|assumption].
Qed.




(** The product a creation answers is stored under the id of the
    answer, which was free before. *)
Lemma post_stores (p : schemas.ProdutoCreate) (w : World) (e : json.Produto) :
  (serve (POST p) w).1 = Ok (JProduto e) ->
  exists k : int64,
    json.id e = int64_Z k /\ table w !! k = None /\
    next_id (random_rowid w) (table w) = Some k /\
    table (serve (POST p) w).2 !! k = Some (row_of_payload p) /\
    entity k (row_of_payload p) = Some e.
Proof.
  rewrite serve_response, serve_table. cbn [response_for table_after].
  destruct (decide _); [|discriminate].
  destruct (next_id _ _) as [k|] eqn:Hk; [|discriminate].
  destruct (entity k _) as [e'|] eqn:He; [|discriminate].
  intros H. injection H as <-. exists k. repeat split.
  - eapply entity_id. eassumption.
  - eapply next_id_fresh. eassumption.
  - apply lookup_insert_eq.
  - assumption.
Qed.

Lemma serve_all_app (rs1 rs2 : list Request) (w : World) :
  serve_all (rs1 ++ rs2) w =
  ((serve_all rs1 w).1 ++ (serve_all rs2 (serve_all rs1 w).2).1,
   (serve_all rs2 (serve_all rs1 w).2).2).
Proof.
  revert w. induction rs1 as [|r rs1 IH]; intros w.
  - cbn. destruct (serve_all rs2 w). reflexivity.
  - rewrite <- app_comm_cons, !serve_all_cons, IH. reflexivity.
Qed.



(** ** C5 *)



(** ** C7 *)

(** C7: the id of a product is assigned once, by the store at creation,
    and no later operation changes it.  A creation that answers a
    product answers the id the store generated, which no row had, and
    leaves the payload's row under that id and every other id as it
    was; the payload has no say in the id.  An update that answers a
    product answers the id it was addressed with, leaves the payload's
    row under that id, and leaves the set of ids of the table as it
    was, as does every update, whatever it answers.  An id becomes that
    of a row only by the creation that generates it, and a row keeps
    its id through every request that does not delete it, and through
    every run of such requests. *)
Theorem id_assigned_once (w : World) :
  (forall p e, (post_produtos p w).1 = Ok (JProduto e) ->
     exists k : int64,
       json.id e = int64_Z k /\
       next_id (random_rowid w) (table w) = Some k /\
       table w !! k = None /\
       table (post_produtos p w).2 !! k = Some (row_of_payload p) /\
       forall k', k' <> k -> table (post_produtos p w).2 !! k' = table w !! k') /\
  (forall i dados e, (put_produto i dados w).1 = Ok (JProduto e) ->
     json.id e = i /\
     exists k : int64,
       to_int64 i = Some k /\ is_Some (table w !! k) /\
       table (put_produto i dados w).2 !! k = Some (row_of_payload dados) /\
       forall k', k' <> k -> table (put_produto i dados w).2 !! k' = table w !! k') /\
  (forall i dados, dom (table (put_produto i dados w).2) = dom (table w)) /\
  (forall r k, table w !! k = None -> is_Some (table (serve r w).2 !! k) ->
     exists p, r = POST p /\ next_id (random_rowid w) (table w) = Some k) /\
  (forall r (k : int64), is_Some (table w !! k) -> r <> DELETE k ->
     is_Some (table (serve r w).2 !! k)) /\
  (forall rs (k : int64), is_Some (table w !! k) -> DELETE k ∉ rs ->
     is_Some (table (serve_all rs w).2 !! k)).
Proof.
  repeat apply conj.
  - intros p e H. as_serve_in H. as_serve.
    destruct (post_stores p w e H) as (k & Hid & Hnone & Hk & Ht & _).
    exists k. repeat split; try assumption.
    intros k' Hne. rewrite serve_table. cbn [table_after].
    rewrite serve_response in H. cbn [response_for] in H.
    destruct (decide _); [|discriminate]. rewrite Hk.
    apply lookup_insert_ne. congruence.
  - intros i dados e H. as_serve_in H. as_serve.
    rewrite serve_response in H. rewrite serve_table.
    cbn [response_for table_after] in *.
    destruct (to_int64 i) as [k|] eqn:Hk; [|discriminate].
    destruct (table w !! k) as [row|] eqn:Ht; [|discriminate].
    destruct (decide _); [|discriminate].
    destruct (entity k _) as [e'|] eqn:He; [|discriminate].
    cbn in H. assert (e' = e) as -> by congruence.
    split.
    + rewrite (entity_id _ _ _ He). apply to_int64_Some. assumption.
    + exists k. repeat split; eauto.
      * rewrite lookup_alter_eq, Ht. reflexivity.
      * intros k' Hne. apply lookup_alter_ne. congruence.
  - intros i dados. as_serve. rewrite serve_table. cbn [table_after].
    destruct (to_int64 i) as [k|]; [|reflexivity].
    destruct (decide _); [|reflexivity].
    apply set_eq. intros k'. rewrite !elem_of_dom.
    destruct (decide (k = k')) as [->|Hne].
    + rewrite lookup_alter_is_Some. reflexivity.
    + rewrite lookup_alter_ne by assumption. reflexivity.
  - intros r k Hnone Hs. rewrite serve_table in Hs.
    destruct r as [p| |j|j d|j]; cbn [table_after] in Hs.
    + destruct (decide _); [|rewrite Hnone in Hs; destruct Hs; discriminate].
      destruct (next_id _ _) as [k'|] eqn:Hk;
        [|rewrite Hnone in Hs; destruct Hs; discriminate].
      destruct (decide (k' = k)) as [->|Hne]; [eauto|].
      rewrite lookup_insert_ne, Hnone in Hs by assumption. destruct Hs; discriminate.
    + rewrite Hnone in Hs; destruct Hs; discriminate.
    + rewrite Hnone in Hs; destruct Hs; discriminate.
    + destruct (to_int64 j) as [k'|];
        [|rewrite Hnone in Hs; destruct Hs; discriminate].
      destruct (decide _); [|rewrite Hnone in Hs; destruct Hs; discriminate].
      apply lookup_alter_is_Some in Hs. rewrite Hnone in Hs. destruct Hs; discriminate.
    + destruct (to_int64 j) as [k'|];
        [|rewrite Hnone in Hs; destruct Hs; discriminate].
      destruct (decide (k' = k)) as [->|Hne].
      * rewrite lookup_delete_eq in Hs. destruct Hs; discriminate.
      * rewrite lookup_delete_ne, Hnone in Hs by assumption. destruct Hs; discriminate.
  - intros r k Hs Hne. rewrite serve_table. apply table_after_keeps_key; assumption.
  - intros rs k Hs Hne. apply serve_all_keeps_key; assumption.
Qed.

(** ** Further properties of the routes *)

(** X1: over a run of n requests the session factory hands out n
    sessions and none of them is open at the end: the sessions open
    after the run are those that were open before and do not belong to
    the run. *)
Theorem sessions_balance_over_runs (rs : list Request) (w : World) :
  sessions_created (serve_all rs w).2 = (sessions_created w + length rs)%nat /\
  forall s, (s ∈ open_sessions (serve_all rs w).2) <->
            (s ∈ open_sessions w) /\
            ~ (sessions_created w <= s < sessions_created w + length rs)%nat.
Proof.
  revert w. induction rs as [|r rs IH]; intros w.
  { cbn. split; [lia|]. intros s. split; [intros H; split; [assumption|lia] | tauto]. }
  rewrite serve_all_cons. cbn [snd length].
  destruct (IH (serve r w).2) as [IHc IHo]. rewrite serve_created in IHc, IHo.
  split; [lia|].
  intros s. rewrite IHo, serve_open. split.
  - intros [[Hs Hne] Hrange]. split; [assumption|lia].
  - intros [Hs Hrange]. split; [split; [assumption|lia] | lia].
Qed.

(** X2: on every route, a request that is answered with the 404 error
    leaves the table as it found it. *)
Theorem not_found_leaves_table (r : Request) (w : World) :
  (serve r w).1 = Error 404 "Produto não encontrado" ->
  table (serve r w).2 = table w.
Proof.
  rewrite serve_response, serve_table.
  destruct r as [p| |i|i d|i]; cbn [response_for table_after]; try reflexivity.
  - destruct (decide _); [|reflexivity].
    destruct (next_id _ _) as [k|]; [|reflexivity].
    destruct (entity k _); discriminate.
  - destruct (to_int64 i) as [k|]; [|reflexivity].
    destruct (table w !! k) as [row|] eqn:E.
    + destruct (decide _); [|reflexivity]. destruct (entity k _); discriminate.
    + intros _. destruct (decide _); [|reflexivity]. apply alter_absent. assumption.
  - destruct (to_int64 i) as [k|]; [|reflexivity].
    destruct (table w !! k) as [row|] eqn:E; [discriminate|].
    intros _. apply delete_absent. assumption.
Qed.

(** X3: Get-by-id agrees with List: when the listing answers a list,
    GET on an id answers entity e exactly when the list holds e and e
    carries that id. *)
Theorem get_agrees_with_listing (w : World) (l : list json.Produto) :
  (get_produtos w).1 = Ok (JLista l) ->
  forall i e, (get_produto i w).1 = Ok (JProduto e) <-> e ∈ l /\ json.id e = i.
Proof.
  as_serve. rewrite serve_response. cbn [response_for].
  destruct (entities (table w)) as [l'|] eqn:E; [|discriminate].
  intros H. assert (l' = l) as -> by congruence. clear H.
  intros i e. as_serve. rewrite serve_response. cbn [response_for].
  rewrite (elem_of_entities _ _ e E). split.
  - destruct (to_int64 i) as [k|] eqn:Hk; [|discriminate].
    destruct (table w !! k) as [row|] eqn:Ht; [|discriminate].
    destruct (entity k row) as [e'|] eqn:He; [|discriminate].
    cbn. intros H. assert (e' = e) as -> by congruence. split; [eauto|].
    rewrite (entity_id _ _ _ He). apply to_int64_Some. assumption.
  - intros [(k & row & Ht & He) <-].
    rewrite (entity_id _ _ _ He), to_int64_proj, Ht, He. reflexivity.
Qed.

(** X4: a delete of an existing id removes that entity from the
    listing and no other: when the listing answered list l before, it
    answers a list after, l is a permutation of the deleted entity
    followed by the list after, and the deleted entity is not in the
    list after. *)
Theorem delete_shrinks_listing (w : World) (k : int64) (row : Row)
    (l : list json.Produto) :
  table w !! k = Some row ->
  (get_produtos w).1 = Ok (JLista l) ->
  exists e l',
    entity k row = Some e /\
    (get_produtos (delete_produto k w).2).1 = Ok (JLista l') /\
    l ≡ₚ e :: l' /\
    e ∉ l'.
Proof.
  intros Ht. as_serve. rewrite !serve_response. cbn [response_for].
  rewrite serve_table. cbn [table_after]. rewrite to_int64_proj.
  destruct (entities (table w)) as [l0|] eqn:E; [|discriminate].
  intros H. assert (l0 = l) as -> by congruence. clear H.
  destruct (entities_delete _ _ _ _ Ht E) as (e & l' & He & El' & Hperm).
  exists e, l'. rewrite El'. repeat split; try assumption.
  rewrite (elem_of_entities _ _ e El'). intros (k' & row' & Ht' & He').
  assert (k' = k) as ->.
  { apply int64_eq. rewrite <- (entity_id _ _ _ He), <- (entity_id _ _ _ He').
    reflexivity. }
  rewrite lookup_delete_eq in Ht'. discriminate.
Qed.

(** X5: an update whose payload carries the values the row has leaves
    the table unchanged. *)
Theorem update_with_same_values (w : World) (k : int64)
    (dados : schemas.ProdutoCreate) :
  table w !! k = Some (row_of_payload dados) ->
  table (put_produto k dados w).2 = table w.
Proof.
  intros Ht. as_serve. rewrite serve_table. cbn [table_after].
  rewrite to_int64_proj. destruct (decide _); [|reflexivity].
  apply map_eq. intros k'. destruct (decide (k = k')) as [<-|Hne].
  - rewrite lookup_alter_eq, Ht. reflexivity.
  - apply lookup_alter_ne. assumption.
Qed.

Lemma table_after_other (r : Request) (w : World) (i : Z) (k : int64) :
  target r = Some i -> to_int64 i <> Some k -> table_after r w !! k = table w !! k.
Proof.
  destruct r as [p| |j|j d|j]; cbn [target table_after]; try discriminate;
    intros H Hk; injection H as ->; try reflexivity.
  - destruct (to_int64 i) as [k'|]; [|reflexivity].
    destruct (decide _); [|reflexivity].
    apply lookup_alter_ne. congruence.
  - destruct (to_int64 i) as [k'|]; [|reflexivity].
    apply lookup_delete_ne. congruence.
Qed.

Lemma table_after_local (r : Request) (w w' : World) (i : Z) (k : int64) :
  target r = Some i -> to_int64 i = Some k -> table w !! k = table w' !! k ->
  table_after r w !! k = table_after r w' !! k.
Proof.
  destruct r as [p| |j|j d|j]; cbn [target table_after]; try discriminate;
    intros H Hk Ht; injection H as ->; try assumption; rewrite Hk.
  - destruct (decide _); [|assumption].
    rewrite !lookup_alter_eq, Ht. reflexivity.
  - rewrite !lookup_delete_eq. reflexivity.
Qed.

Lemma response_for_local (r : Request) (w w' : World) (i : Z) :
  target r = Some i ->
  (forall k, to_int64 i = Some k -> table w !! k = table w' !! k) ->
  response_for r w = response_for r w'.
Proof.
  destruct r as [p| |j|j d|j]; cbn [target response_for]; try discriminate;
    intros H Ht; injection H as ->;
    (destruct (to_int64 i) as [k|]; [|reflexivity]);
    rewrite (Ht k eq_refl); reflexivity.
Qed.

(** X6: two requests that address different ids (get, update or
    delete) do not affect each other: each gets the response it would
    get alone, and the final table is the same in either order. *)
Theorem distinct_ids_commute (r1 r2 : Request) (i j : Z) (w : World) :
  target r1 = Some i -> target r2 = Some j -> i <> j ->
  (serve r2 (serve r1 w).2).1 = (serve r2 w).1 /\
  (serve r1 (serve r2 w).2).1 = (serve r1 w).1 /\
  table (serve r2 (serve r1 w).2).2 = table (serve r1 (serve r2 w).2).2.
Proof.
  intros H1 H2 Hne. rewrite !serve_response, !serve_table.
  assert (Hij : forall k, to_int64 i = Some k -> to_int64 j <> Some k).
  { intros k Hi Hj. apply to_int64_Some in Hi, Hj. congruence. }
  assert (Hji : forall k, to_int64 j = Some k -> to_int64 i <> Some k).
  { intros k Hj Hi. exact (Hij k Hi Hj). }
  split; [|split].
  - apply (response_for_local r2 _ _ j H2). intros k Hk.
    rewrite serve_table. apply (table_after_other r1 _ i k H1). auto.
  - apply (response_for_local r1 _ _ i H1). intros k Hk.
    rewrite serve_table. apply (table_after_other r2 _ j k H2). auto.
  - apply map_eq. intros k.
    destruct (decide (to_int64 i = Some k)) as [Hi|Hi];
      [|destruct (decide (to_int64 j = Some k)) as [Hj|Hj]].
    + rewrite (table_after_other r2 _ j k H2) by auto. rewrite serve_table.
      apply (table_after_local r1 _ _ i k H1 Hi). symmetry.
      rewrite serve_table. apply (table_after_other r2 _ j k H2). auto.
    + rewrite (table_after_other r1 (serve r2 w).2 i k H1) by auto.
      rewrite serve_table.
      apply (table_after_local r2 _ _ j k H2 Hj).
      rewrite serve_table. apply (table_after_other r1 _ i k H1). auto.
    + rewrite (table_after_other r2 _ j k H2), (table_after_other r1 _ i k H1) by auto.
      rewrite !serve_table.
      rewrite (table_after_other r1 _ i k H1), (table_after_other r2 _ j k H2) by auto.
      reflexivity.
Qed.

(** ** The instances of a session *)

Lemma mark_idem (l : list nat) (r : nat) : mark (mark l r) r = mark l r.
Proof.
  unfold mark. destruct (decide (r ∈ l)) as [Hin|Hout].
  - rewrite decide_True by assumption. reflexivity.
  - rewrite decide_True; [reflexivity|].
    apply elem_of_app. right. apply list_elem_of_singleton. reflexivity.
Qed.

Lemma elem_of_mark (l : list nat) (r : nat) : r ∈ mark l r.
Proof.
  unfold mark. destruct (decide (r ∈ l)) as [Hin|Hout]; [assumption|].
  apply elem_of_app. right. apply list_elem_of_singleton. reflexivity.
Qed.

Lemma setattr_run (s : Session) (w : World) (r : nat) (o : models.Produto)
    (campo : string) (valor : Value) :
  instances s !! r = Some o ->
  setattr r campo valor (s, w) =
  (Return tt,
   (mkSession (<[r := models.setattr o campo valor]> (instances s))
              (new s) (mark (dirty s) r) (deleted s), w)).
Proof.
  intros Ho. unfold setattr, instance, store, bind, get_session, put_session, ret.
  cbn [fst snd]. rewrite Ho. reflexivity.
Qed.

Lemma setattr_dict_run (s : Session) (w : World) (r : nat) (o : models.Produto)
    (dados : schemas.ProdutoCreate) :
  instances s !! r = Some o ->
  for_each (fun kv => setattr r (fst kv) (snd kv)) (schemas.dict dados) (s, w) =
  (Return tt,
   (mkSession
      (<[r := models.mkProduto (models.id o)
                (Some (VStr (schemas.nome dados)))
                (Some (VFloat (schemas.preco dados)))
                (Some (VInt (schemas.estoque dados)))]> (instances s))
      (new s) (mark (dirty s) r) (deleted s), w)).
Proof.
  intros Ho. pose proof (lookup_lt_Some _ _ _ Ho) as Hlt.
  unfold schemas.dict. cbn [for_each fst snd].
  erewrite bind_Return by (apply setattr_run; eassumption).
  erewrite bind_Return
    by (apply setattr_run; cbn [instances]; apply list_lookup_insert_eq; assumption).
  cbn [instances new dirty deleted].
  erewrite bind_Return
    by (apply setattr_run; cbn [instances]; apply list_lookup_insert_eq;
        rewrite length_insert; assumption).
  cbn [instances new dirty deleted].
  rewrite !list_insert_insert_eq, !mark_idem. reflexivity.
Qed.

(** X7: the loop of the update over the fields of the payload, on any
    instance of any session: it goes through, the instance ends with
    the payload's nome, preco and estoque and the id it had, so it is
    written as the payload's row when the stock can be bound and not at
    all when it cannot; no other instance changes, the instance is
    remembered as modified, and the pending inserts, the pending deletes
    and the world are as they were. *)
Theorem update_loop_overwrites_instance (s : Session) (w : World) (r : nat)
    (o : models.Produto) (dados : schemas.ProdutoCreate) :
  instances s !! r = Some o ->
  exists s' o',
    for_each (fun kv => setattr r (fst kv) (snd kv)) (schemas.dict dados) (s, w)
      = (Return tt, (s', w)) /\
    instances s' !! r = Some o' /\
    o' = models.mkProduto (models.id o)
           (Some (VStr (schemas.nome dados)))
           (Some (VFloat (schemas.preco dados)))
           (Some (VInt (schemas.estoque dados))) /\
    row_of o' = (if decide (in_int64 (schemas.estoque dados))
                 then Return (row_of_payload dados) else Raise OverflowError) /\
    (forall k, k <> r -> instances s' !! k = instances s !! k) /\
    r ∈ dirty s' /\
    (forall k, k ∈ dirty s' <-> k ∈ dirty s \/ k = r) /\
    new s' = new s /\ deleted s' = deleted s.
Proof.
  intros Ho. eexists. eexists. split; [apply setattr_dict_run; eassumption|].
  cbn [instances new dirty deleted].
  split; [apply list_lookup_insert_eq; eapply lookup_lt_Some; eassumption|].
  split; [reflexivity|]. split.
  { unfold row_of, row_of_payload. cbn [models.nome models.estoque models.preco].
    destruct (decide _); reflexivity. }
  split; [|split; [|split]].
  - intros k Hk. apply list_lookup_insert_ne. congruence.
  - apply elem_of_mark.
  - intros k. unfold mark. destruct (decide (r ∈ dirty s)) as [Hin|Hout].
    + split; [auto|]. intros [H| ->]; assumption.
    + rewrite elem_of_app, list_elem_of_singleton. reflexivity.
  - split; reflexivity.
Qed.

(** X8: the constructor called on the fields of a payload, in any
    session: it returns a new instance that has the payload's nome,
    preco and estoque and no id; the instances that existed are as they
    were, and nothing is added to the pending inserts, the modified
    instances or the pending deletes; the world is as it was. *)
Theorem constructor_makes_instance_without_id (s : Session) (w : World)
    (p : schemas.ProdutoCreate) :
  exists s' o,
    models_Produto (schemas.dict p) (s, w) = (Return (length (instances s)), (s', w)) /\
    instances s' !! length (instances s) = Some o /\
    models.id o = None /\
    o = models.mkProduto None
          (Some (VStr (schemas.nome p)))
          (Some (VFloat (schemas.preco p)))
          (Some (VInt (schemas.estoque p))) /\
    row_of o = (if decide (in_int64 (schemas.estoque p))
                then Return (row_of_payload p) else Raise OverflowError) /\
    (forall k, (k < length (instances s))%nat -> instances s' !! k = instances s !! k) /\
    new s' = new s /\ dirty s' = dirty s /\ deleted s' = deleted s.
Proof.
  set (o := models.mkProduto None
              (Some (VStr (schemas.nome p)))
              (Some (VFloat (schemas.preco p)))
              (Some (VInt (schemas.estoque p)))).
  exists (mkSession (instances s ++ [o]) (new s) (dirty s) (deleted s)), o.
  split; [reflexivity|].
  cbn [instances new dirty deleted].
  split; [rewrite lookup_app_r, Nat.sub_diag by lia; reflexivity|].
  split; [reflexivity|]. split; [reflexivity|]. split.
  { unfold row_of, row_of_payload. cbn [o models.nome models.estoque models.preco].
    destruct (decide _); reflexivity. }
  split.
  - intros k Hk. apply lookup_app_l. assumption.
  - repeat split.
Qed.

(** ** Further properties of the listing *)

(** X9: a creation that answers a product adds that product to the
    listing and changes nothing else: when the listing answered list l
    before, it answers after a permutation of the created product
    followed by l. *)
Theorem create_extends_listing (w : World) (p : schemas.ProdutoCreate)
    (e : json.Produto) (l : list json.Produto) :
  (get_produtos w).1 = Ok (JLista l) ->
  (post_produtos p w).1 = Ok (JProduto e) ->
  exists l', (get_produtos (post_produtos p w).2).1 = Ok (JLista l') /\
             l' ≡ₚ e :: l /\ e ∉ l.
Proof.
  as_serve. intros Hl Hp.
  destruct (post_stores p w e Hp) as (k & Hid & Hnone & Hk & _ & He).
  rewrite !serve_response in *. cbn [response_for] in *.
  rewrite serve_table. cbn [table_after].
  destruct (entities (table w)) as [l0|] eqn:E; [|discriminate].
  assert (l0 = l) as -> by congruence.
  destruct (decide _); [|discriminate]. rewrite Hk.
  destruct (entities_insert_fresh _ _ _ _ _ Hnone E He) as (l' & El' & Hperm).
  exists l'. rewrite El'. repeat split; try assumption.
  rewrite (elem_of_entities _ _ e E). intros (k' & row' & Ht' & He').
  assert (k' = k) as ->.
  { apply int64_eq. rewrite <- (entity_id _ _ _ He), <- (entity_id _ _ _ He').
    reflexivity. }
  congruence.
Qed.

(** X10: an update that answers a product replaces one entity of the
    listing and no other: when the listing answered list l before, then
    for some entity of the addressed id and some list of other
    entities, l is a permutation of that entity followed by the others,
    and the listing after answers a permutation of the answered product
    followed by the same others. *)
Theorem update_replaces_in_listing (w : World) (i : Z)
    (dados : schemas.ProdutoCreate) (e : json.Produto) (l : list json.Produto) :
  (get_produtos w).1 = Ok (JLista l) ->
  (put_produto i dados w).1 = Ok (JProduto e) ->
  exists old others l',
    json.id old = i /\ json.id e = i /\
    l ≡ₚ old :: others /\
    (get_produtos (put_produto i dados w).2).1 = Ok (JLista l') /\
    l' ≡ₚ e :: others.
Proof.
  as_serve. rewrite !serve_response. cbn [response_for].
  rewrite serve_table. cbn [table_after].
  destruct (entities (table w)) as [l0|] eqn:E; [|discriminate].
  intros H. assert (l0 = l) as -> by congruence. clear H.
  destruct (to_int64 i) as [k|] eqn:Hk; [|discriminate].
  destruct (table w !! k) as [row|] eqn:Ht; [|discriminate].
  destruct (decide _); [|discriminate].
  destruct (entity k (row_of_payload dados)) as [e'|] eqn:He; [|discriminate].
  cbn. intros H. assert (e' = e) as -> by congruence. clear H.
  destruct (entities_delete _ _ _ _ Ht E) as (old & others & Hold & Eo & Hperm).
  assert (Halt : alter (fun _ => row_of_payload dados) k (table w)
                 = <[k := row_of_payload dados]> (delete k (table w))).
  { apply map_eq. intros k'. destruct (decide (k = k')) as [<-|Hne].
    - rewrite lookup_alter_eq, Ht, lookup_insert_eq. reflexivity.
    - rewrite lookup_alter_ne, lookup_insert_ne, lookup_delete_ne by assumption.
      reflexivity. }
  rewrite Halt.
  destruct (entities_insert_fresh _ k _ _ _ (lookup_delete_eq _ _) Eo He)
    as (l' & El' & Hperm').
  exists old, others, l'. rewrite El'. apply to_int64_Some in Hk.
  rewrite (entity_id _ _ _ Hold), (entity_id _ _ _ He).
  repeat split; auto.
Qed.

(** ** Sequences of writes *)


(** X12: deleting the product a creation has answered is acknowledged
    and gives back the table the creation found. *)
Theorem create_then_delete_restores (w : World) (p : schemas.ProdutoCreate)
    (e : json.Produto) :
  (post_produtos p w).1 = Ok (JProduto e) ->
  (delete_produto (json.id e) (post_produtos p w).2).1 = Ok deleted_body /\
  table (delete_produto (json.id e) (post_produtos p w).2).2 = table w.
Proof.
  as_serve. intros Hp.
  destruct (post_stores p w e Hp) as (k & Hid & Hnone & Hk & Ht & _).
  rewrite Hid, serve_response. cbn [response_for].
  rewrite (serve_table (DELETE k)). cbn [table_after].
  rewrite to_int64_proj, Ht. split; [reflexivity|].
  rewrite serve_table. cbn [table_after].
  rewrite serve_response in Hp. cbn [response_for] in Hp.
  destruct (decide _); [|discriminate]. rewrite Hk.
  apply delete_insert_id. assumption.
Qed.

Lemma created_products_cons (r : Request) (rs : list Request) (resp : Response)
    (resps : list Response) :
  created_products (r :: rs) (resp :: resps) =
  ((if is_POST r && carries_product resp then 1 else 0) + created_products rs resps)%nat.
Proof.
  unfold created_products. cbn [zip zip_with List.filter].
  unfold answered_creation at 1. cbn [fst snd].
  destruct (is_POST r && carries_product resp); reflexivity.
Qed.

(** X13: over a run of requests the rows are accounted for: the rows at
    the end plus the deletes that were acknowledged are at least the
    rows at the start plus the creations that answered a product, and
    at most the rows at the start plus the creations requested; so only
    a creation adds a row, only an acknowledged delete removes one, and
    each does so for one row. *)
Theorem table_size_balance (rs : list Request) (w : World) :
  (size (table w) + created_products rs (serve_all rs w).1
   <= size (table (serve_all rs w).2)
      + length (List.filter acknowledged (serve_all rs w).1)
   <= size (table w) + length (List.filter is_POST rs))%nat.
Proof.
  revert w. induction rs as [|r rs IH]; intros w; [cbn; lia|].
  rewrite serve_all_cons. cbn [fst snd].
  rewrite created_products_cons. cbn [List.filter].
  specialize (IH (serve r w).2). rewrite serve_table in IH.
  pose proof (table_after_size r w) as H. rewrite serve_response.
  rewrite (andb_comm (is_POST r)).
  destruct (is_POST r); rewrite ?andb_true_r, ?andb_false_r in *;
    destruct (carries_product (response_for r w));
    destruct (acknowledged (response_for r w)); cbn [length]; lia.
Qed.

(** X14: a stock outside the signed 64-bit range is refused by the
    store: a creation with such a payload is answered 500, an update
    with it is answered 500 or, when no row has the id, 404; and both
    leave the table as it was. *)
Theorem rejected_stock_leaves_table (w : World) (p : schemas.ProdutoCreate) :
  ~ in_int64 (schemas.estoque p) ->
  (post_produtos p w).1 = Error 500 "Internal Server Error" /\
  table (post_produtos p w).2 = table w /\
  forall i,
    ((put_produto i p w).1 = Error 500 "Internal Server Error" \/
     (put_produto i p w).1 = Error 404 "Produto não encontrado" /\
     exists k, to_int64 i = Some k /\ table w !! k = None) /\
    table (put_produto i p w).2 = table w.
Proof.
  intros Hp. as_serve. rewrite !serve_response, !serve_table.
  cbn [response_for table_after]. rewrite !decide_False by assumption.
  split; [reflexivity|]. split; [reflexivity|].
  intros i. as_serve. rewrite !serve_response, !serve_table.
  cbn [response_for table_after].
  destruct (to_int64 i) as [k|]; [|split; [left|]; reflexivity].
  rewrite !decide_False by assumption. split; [|reflexivity].
  destruct (table w !! k) as [row|] eqn:Ht; [left; reflexivity|].
  right. split; [reflexivity|]. exists k. split; [reflexivity|assumption].
Qed.


(** ** The theorems at the Caneta *)




Lemma deletar_removes_witness :
  table world_caneta !! key_1 = Some row_caneta /\
  exists w' : World,
    delete_produto key_1 world_caneta =
      (Ok (JDict [("mensagem"%string, "Produto deletado com sucesso"%string)]), w') /\
    table w' !! key_1 = None /\
    (forall j, j <> key_1 -> table w' !! j = table world_caneta !! j) /\
    (get_produto key_1 w').1 = Error 404 "Produto não encontrado" /\
    (delete_produto key_1 w').1 = Error 404 "Produto não encontrado".
Proof.
  assert (H1 : table world_caneta !! key_1 = Some row_caneta) by (vm_compute; reflexivity).
  exact (conj H1 (deletar_removes world_caneta key_1 row_caneta H1)).
Defined.

Lemma world_caneta_absent (i : Z) :
  i <> 1 -> forall k, to_int64 i = Some k -> table world_caneta !! k = None.
Proof.
  intros Hi k Hk. apply to_int64_Some in Hk. apply lookup_singleton_ne.
  intros <-. apply Hi. symmetry. exact Hk.
Qed.

Lemma atualizar_absent_unchanged_witness :
  (forall k, to_int64 5 = Some k -> table world_caneta !! k = None) /\
  table (put_produto 5 caneta_azul world_caneta).2 = table world_caneta /\
  (in_int64 5 ->
   (put_produto 5 caneta_azul world_caneta).1 = Error 404 "Produto não encontrado") /\
  (~ in_int64 5 ->
   (put_produto 5 caneta_azul world_caneta).1 = Error 500 "Internal Server Error").
Proof.
  assert (H1 : forall k, to_int64 5 = Some k -> table world_caneta !! k = None)
    by (apply world_caneta_absent; lia).
  exact (conj H1 (atualizar_absent_unchanged world_caneta 5 caneta_azul H1)).
Defined.

Lemma not_found_leaves_table_witness :
  (serve (DELETE 5) world_caneta).1 = Error 404 "Produto não encontrado" /\
  table (serve (DELETE 5) world_caneta).2 = table world_caneta.
Proof.
  assert (H1 : (serve (DELETE 5) world_caneta).1 = Error 404 "Produto não encontrado")
    by (vm_compute; reflexivity).
  exact (conj H1 (not_found_leaves_table (DELETE 5) world_caneta H1)).
Defined.

Lemma get_agrees_with_listing_witness :
  (get_produtos world_caneta).1 = Ok (JLista [body_caneta]) /\
  forall i e, (get_produto i world_caneta).1 = Ok (JProduto e) <->
              e ∈ [body_caneta] /\ json.id e = i.
Proof.
  assert (H1 : (get_produtos world_caneta).1 = Ok (JLista [body_caneta]))
    by (vm_compute; reflexivity).
  exact (conj H1 (get_agrees_with_listing world_caneta [body_caneta] H1)).
Defined.

Lemma delete_shrinks_listing_witness :
  table world_caneta !! key_1 = Some row_caneta /\
  (get_produtos world_caneta).1 = Ok (JLista [body_caneta]) /\
  exists e l',
    entity key_1 row_caneta = Some e /\
    (get_produtos (delete_produto key_1 world_caneta).2).1 = Ok (JLista l') /\
    [body_caneta] ≡ₚ e :: l' /\
    e ∉ l'.
Proof.
  assert (H1 : table world_caneta !! key_1 = Some row_caneta) by (vm_compute; reflexivity).
  assert (H2 : (get_produtos world_caneta).1 = Ok (JLista [body_caneta]))
    by (vm_compute; reflexivity).
  exact (conj H1 (conj H2
           (delete_shrinks_listing world_caneta key_1 row_caneta [body_caneta] H1 H2))).
Defined.

Lemma update_with_same_values_witness :
  table world_caneta !! key_1 = Some (row_of_payload caneta) /\
  table (put_produto key_1 caneta world_caneta).2 = table world_caneta.
Proof.
  assert (H1 : table world_caneta !! key_1 = Some (row_of_payload caneta))
    by (vm_compute; reflexivity).
  exact (conj H1 (update_with_same_values world_caneta key_1 caneta H1)).
Defined.

Lemma distinct_ids_commute_witness :
  target (PUT 1 caneta_azul) = Some 1 /\ target (DELETE 2) = Some 2 /\ 1 <> 2 /\
  (serve (DELETE 2) (serve (PUT 1 caneta_azul) world_caneta).2).1
    = (serve (DELETE 2) world_caneta).1 /\
  (serve (PUT 1 caneta_azul) (serve (DELETE 2) world_caneta).2).1
    = (serve (PUT 1 caneta_azul) world_caneta).1 /\
  table (serve (DELETE 2) (serve (PUT 1 caneta_azul) world_caneta).2).2
    = table (serve (PUT 1 caneta_azul) (serve (DELETE 2) world_caneta).2).2.
Proof.
  assert (H3 : 1 <> 2) by lia.
  exact (conj eq_refl (conj eq_refl (conj H3
           (distinct_ids_commute (PUT 1 caneta_azul) (DELETE 2) 1 2 world_caneta
              eq_refl eq_refl H3)))).
Defined.

Lemma update_loop_overwrites_instance_witness :
  instances (mkSession [load key_1 row_caneta] [] [] []) !! 0%nat
    = Some (load key_1 row_caneta) /\
  exists s' o',
    for_each (fun kv => setattr 0 (fst kv) (snd kv)) (schemas.dict caneta_azul)
             (mkSession [load key_1 row_caneta] [] [] [], world_caneta)
      = (Return tt, (s', world_caneta)) /\
    instances s' !! 0%nat = Some o' /\
    o' = models.mkProduto (models.id (load key_1 row_caneta))
           (Some (VStr (schemas.nome caneta_azul)))
           (Some (VFloat (schemas.preco caneta_azul)))
           (Some (VInt (schemas.estoque caneta_azul))) /\
    row_of o' = (if decide (in_int64 (schemas.estoque caneta_azul))
                 then Return (row_of_payload caneta_azul) else Raise OverflowError) /\
    (forall k, k <> 0%nat ->
       instances s' !! k
       = instances (mkSession [load key_1 row_caneta] [] [] []) !! k) /\
    0%nat ∈ dirty s' /\
    (forall k, k ∈ dirty s' <->
       k ∈ dirty (mkSession [load key_1 row_caneta] [] [] []) \/ k = 0%nat) /\
    new s' = new (mkSession [load key_1 row_caneta] [] [] []) /\
    deleted s' = deleted (mkSession [load key_1 row_caneta] [] [] []).
Proof.
  exact (conj eq_refl
           (update_loop_overwrites_instance
              (mkSession [load key_1 row_caneta] [] [] []) world_caneta 0
              (load key_1 row_caneta) caneta_azul eq_refl)).
Defined.

Lemma create_extends_listing_witness :
  (get_produtos empty_world).1 = Ok (JLista []) /\
  (post_produtos caneta empty_world).1 = Ok (JProduto body_caneta) /\
  exists l', (get_produtos (post_produtos caneta empty_world).2).1 = Ok (JLista l') /\
             l' ≡ₚ body_caneta :: [] /\ body_caneta ∉ [].
Proof.
  assert (H1 : (get_produtos empty_world).1 = Ok (JLista [])) by (vm_compute; reflexivity).
  assert (H2 : (post_produtos caneta empty_world).1 = Ok (JProduto body_caneta))
    by (vm_compute; reflexivity).
  exact (conj H1 (conj H2
           (create_extends_listing empty_world caneta body_caneta [] H1 H2))).
Defined.

Lemma update_replaces_in_listing_witness :
  (get_produtos world_caneta).1 = Ok (JLista [body_caneta]) /\
  (put_produto 1 caneta_azul world_caneta).1 = Ok (JProduto body_caneta_azul) /\
  exists old others l',
    json.id old = 1 /\ json.id body_caneta_azul = 1 /\
    [body_caneta] ≡ₚ old :: others /\
    (get_produtos (put_produto 1 caneta_azul world_caneta).2).1 = Ok (JLista l') /\
    l' ≡ₚ body_caneta_azul :: others.
Proof.
  assert (H1 : (get_produtos world_caneta).1 = Ok (JLista [body_caneta]))
    by (vm_compute; reflexivity).
  assert (H2 : (put_produto 1 caneta_azul world_caneta).1 = Ok (JProduto body_caneta_azul))
    by (vm_compute; reflexivity).
  exact (conj H1 (conj H2
           (update_replaces_in_listing world_caneta 1 caneta_azul body_caneta_azul
              [body_caneta] H1 H2))).
Defined.

Lemma create_then_delete_restores_witness :
  (post_produtos caneta empty_world).1 = Ok (JProduto body_caneta) /\
  (delete_produto (json.id body_caneta) (post_produtos caneta empty_world).2).1
    = Ok deleted_body /\
  table (delete_produto (json.id body_caneta) (post_produtos caneta empty_world).2).2
    = table empty_world.
Proof.
  assert (H1 : (post_produtos caneta empty_world).1 = Ok (JProduto body_caneta))
    by (vm_compute; reflexivity).
  exact (conj H1 (create_then_delete_restores empty_world caneta body_caneta H1)).
Defined.

Lemma rejected_stock_leaves_table_witness :
  ~ in_int64 (schemas.estoque caneta_overflow) /\
  (post_produtos caneta_overflow world_caneta).1 = Error 500 "Internal Server Error" /\
  table (post_produtos caneta_overflow world_caneta).2 = table world_caneta /\
  forall i,
    ((put_produto i caneta_overflow world_caneta).1 = Error 500 "Internal Server Error" \/
     (put_produto i caneta_overflow world_caneta).1 = Error 404 "Produto não encontrado" /\
     exists k, to_int64 i = Some k /\ table world_caneta !! k = None) /\
    table (put_produto i caneta_overflow world_caneta).2 = table world_caneta.
Proof.
  assert (H1 : ~ in_int64 (schemas.estoque caneta_overflow)).
  { unfold in_int64, min_int64, max_int64. cbn. lia. }
  exact (conj H1 (rejected_stock_leaves_table world_caneta caneta_overflow H1)).
Defined.


(** ** The scenario of the Caneta, run *)

(** Create, list, update, read, delete, read again. *)
Example caneta_scenario :
  (serve_all [POST caneta; GET_all; PUT 1 caneta_azul; GET 1; DELETE 1; GET 1]
             empty_world).1
  = [Ok (JProduto body_caneta);
     Ok (JLista [body_caneta]);
     Ok (JProduto body_caneta_azul);
     Ok (JProduto body_caneta_azul);
     Ok deleted_body;
     Error 404 "Produto não encontrado"].
Proof. vm_compute. reflexivity. Qed.

(** An infinite [preco] is stored and served as null; a negative zero
    is served as zero. *)
Example preco_as_served :
  (post_produtos (schemas.mkProdutoBase "Caneta" infinity 100) empty_world).1
    = Ok (JProduto (json.mkProduto 1 "Caneta" None 100)) /\
  (post_produtos (schemas.mkProdutoBase "Caneta" neg_zero 100) empty_world).1
    = Ok (JProduto (json.mkProduto 1 "Caneta" (Some 0%float) 100)).
Proof. split; vm_compute; reflexivity. Qed.

(** A row with a NULL [preco] makes the listing and the read of its id
    fail, and a delete of the id repairs the listing. *)
Example null_preco_scenario :
  (serve_all [GET_all; GET 1; DELETE 1; GET_all] world_null).1
  = [Error 500 "Internal Server Error";
     Error 500 "Internal Server Error";
     Ok deleted_body;
     Ok (JLista [])].
Proof. vm_compute. reflexivity. Qed.

(** The sessions of the scenario: each request opens, uses and closes
    its own. *)
Example caneta_sessions :
  trace (serve_all [POST caneta; GET 1] empty_world).2
  = [Closed 1; Used 1; Opened 1;
     Closed 0; Used 0; Used 0; Opened 0]%nat /\
  open_sessions (serve_all [POST caneta; GET 1] empty_world).2 = ∅.
Proof. split; vm_compute; reflexivity. Qed.
